(** * scripts/generate-embeddings.py: loader, batch embedder and writer

    A shallow embedding of the script that reads the packing knowledge base,
    asks the embedding service for one vector per item and writes the
    result as vector-database points.

    Conventions of the model.
    - A Python [str] is a [string]; a character stands for a code point
      below 256, and the tables of white space and of decimal digits are
      Python's, cut at that bound.
    - A Python [int] is a [Z]; list indices and lengths are [nat].
    - A function that may raise or call [sys.exit] returns an [outcome].
    - The embedding service, [uuid.uuid4], the clock and the disk are
      handed to the functions as oracles; what the script does to the
      outside is recorded in a [world]. Output on the terminal ([print],
      [tqdm]) is left out, and so is an interrupt from the keyboard. *)

From Stdlib Require Import ZArith List String Ascii Lia Bool.
From Stdlib Require Import QArith_base.
From Stdlib Require Import SpecFloat.
From stdpp Require Import gmap strings list fin_maps.

Local Open Scope string_scope.
Local Open Scope list_scope.

(** ** Configuration (the module-level constants) *)

Definition CSV_FILE : string := "data/packing-knowledge.csv".
Definition OUTPUT_FILE : string := "data/packing-embeddings.json".
Definition EMBEDDING_MODEL : string := "text-embedding-3-small".
Definition EMBEDDING_DIMENSIONS : nat := 1536.
Definition RETRY_DELAY : Q := 2 # 1.

(** The two constants that shape the loops are kept as parameters of the
    embedder, so that its properties are stated for every batch size and
    every retry ceiling. *)
Record config := {
  BATCH_SIZE : nat;
  RETRY_ATTEMPTS : nat
}.

(** The values the script is shipped with. *)
Definition script_config : config :=
  {| BATCH_SIZE := 100; RETRY_ATTEMPTS := 3 |}.

(** ** Exceptions and outcomes *)

Inductive exn :=
| KeyError (key : string)
| AttributeError
| TypeError
| ValueError
| IndexError
| OSError
| APIError.

Inductive outcome (A : Type) :=
| Return (a : A)
| Raise (e : exn)
| Exit (code : Z).
Arguments Return {A} a.
Arguments Raise {A} e.
Arguments Exit {A} code.

Definition bind {A B} (m : outcome A) (k : A -> outcome B) : outcome B :=
  match m with
  | Return a => k a
  | Raise e => Raise e
  | Exit c => Exit c
  end.

Notation "'let*' x ':=' m 'in' k" := (bind m (fun x => k))
  (at level 10, x name, m at level 100, k at level 200).

(** ** Python string operations *)

(** [str.isspace] on one character ([_PyUnicode_IsWhitespace]). *)
Definition isspace (c : ascii) : bool :=
  let n := N_of_ascii c in
  ((9 <=? n) && (n <=? 13) || (28 <=? n) && (n <=? 32)
   || (n =? 133) || (n =? 160))%N.

Fixpoint lstrip (s : string) : string :=
  match s with
  | EmptyString => EmptyString
  | String c s' => if isspace c then lstrip s' else s
  end.

Fixpoint rstrip (s : string) : string :=
  match s with
  | EmptyString => EmptyString
  | String c s' =>
      match rstrip s' with
      | EmptyString => if isspace c then EmptyString else String c EmptyString
      | r => String c r
      end
  end.

(** [s.strip()] *)
Definition strip (s : string) : string := rstrip (lstrip s).

(** [s.split(sep)] for a separator of one character: every occurrence
    cuts, and the result is never empty ([''.split(',') == ['']]). *)
Fixpoint split (sep : ascii) (s : string) : list string :=
  match s with
  | EmptyString => [EmptyString]
  | String c s' =>
      if Ascii.eqb c sep then EmptyString :: split sep s'
      else match split sep s' with
           | piece :: rest => String c piece :: rest
           | [] => [String c EmptyString]
           end
  end.

(** [sep.join(l)] *)
Fixpoint join (sep : string) (l : list string) : string :=
  match l with
  | [] => EmptyString
  | [x] => x
  | x :: rest => x +:+ sep +:+ join sep rest
  end.

(** ** [int(s)] on a string, base ten *)

(** [Py_ISSPACE], the white space [PyLong_FromString] skips. *)
Definition c_isspace (c : ascii) : bool :=
  let n := N_of_ascii c in ((9 <=? n) && (n <=? 13) || (n =? 32))%N.

Definition digit_value (c : ascii) : option Z :=
  let n := N_of_ascii c in
  if ((48 <=? n) && (n <=? 57))%N then Some (Z.of_N n - 48)%Z else None.

Definition is_underscore (c : ascii) : bool := Ascii.eqb c "_"%char.

(** What [_PyUnicode_TransformDecimalAndSpaceToASCII] makes of a
    character: below 127 it stays, other white space becomes a blank, and
    anything else (no decimal digit lies between 127 and 255) a question
    mark, on which the parse then fails. *)
Definition to_ascii_digit_or_space (c : ascii) : ascii :=
  if (N_of_ascii c <? 127)%N then c
  else if isspace c then " "%char else "?"%char.

Fixpoint map_string (f : ascii -> ascii) (s : string) : string :=
  match s with
  | EmptyString => EmptyString
  | String c s' => String (f c) (map_string f s')
  end.

Fixpoint skip_c_space (s : string) : string :=
  match s with
  | String c s' => if c_isspace c then skip_c_space s' else s
  | EmptyString => EmptyString
  end.

(** The digit loop of [long_from_non_binary_base]: reads digits and single
    underscores; [prev] tells whether the character before was an
    underscore. Gives the value, the number of digits and the rest, or
    nothing on a doubled or trailing underscore. *)
Fixpoint scan_digits (prev : bool) (acc : Z) (digits : nat) (s : string)
  : option (Z * nat * string) :=
  match s with
  | EmptyString => if prev then None else Some (acc, digits, s)
  | String c s' =>
      if is_underscore c then
        if prev then None else scan_digits true acc digits s'
      else match digit_value c with
           | Some d => scan_digits false (acc * 10 + d)%Z (S digits) s'
           | None => if prev then None else Some (acc, digits, s)
           end
  end.

(** [sys.int_info.default_max_str_digits] *)
Definition max_str_digits : nat := 4300.

Definition starts_with_underscore (s : string) : bool :=
  match s with
  | String c _ => is_underscore c
  | EmptyString => false
  end.

Definition py_int (s : string) : option Z :=
  let s0 := skip_c_space (map_string to_ascii_digit_or_space s) in
  let '(negative, s1) :=
    match s0 with
    | String "+"%char r => (false, r)
    | String "-"%char r => (true, r)
    | _ => (false, s0)
    end in
  if starts_with_underscore s1 then None
  else match scan_digits false 0%Z 0 s1 with
       | None => None
       | Some (v, digits, rest) =>
           if (digits =? 0)%nat then None
           else if (max_str_digits <? digits)%nat then None
           else match skip_c_space rest with
                | EmptyString => Some (if negative then (- v)%Z else v)
                | String _ _ => None
                end
       end.


(** ** The data model *)

(** A value of a row that [csv.DictReader] yields: the text of the field,
    or [None] where the line had fewer fields than the header. A row is a
    [gmap] from the column names to such values; the fields beyond the
    header, which the reader files under the key [None], are never looked
    up and are left out. *)
Inductive cell :=
| CStr (s : string)
| CNone.

(** [str(v)], which is what an f-string does to a field. *)
Definition to_str (v : cell) : string :=
  match v with
  | CStr s => s
  | CNone => "None"
  end.

(** One loaded entry: the dictionary [load_knowledge_base] appends, with
    its ten keys. The payload of a point is a dictionary of the same
    shape. *)
Record KnowledgeItem := {
  item : cell;
  category : cell;
  destination_type : cell;
  travel_type : cell;
  season : list string;
  quantity : Z;
  reason : cell;
  importance : cell;
  tags : list string;
  climate : list string
}.

Definition float := spec_float.

(** One point of the output. *)
Record point := {
  id : string;
  vector : list float;
  payload : KnowledgeItem
}.

(** ** Loader *)

(** [row[key]] *)
Definition getitem (row : gmap string cell) (key : string) : outcome cell :=
  match row !! key with
  | Some v => Return v
  | None => Raise (KeyError key)
  end.

(** [row.get(key, '')] *)
Definition get (row : gmap string cell) (key : string) (dflt : cell) : cell :=
  match row !! key with
  | Some v => v
  | None => dflt
  end.

(** [v.split(sep)]: [None] has no such method. *)
Definition split_cell (sep : ascii) (v : cell) : outcome (list string) :=
  match v with
  | CStr s => Return (split sep s)
  | CNone => Raise AttributeError
  end.

(** [int(v)] *)
Definition int (v : cell) : outcome Z :=
  match v with
  | CStr s => match py_int s with
              | Some z => Return z
              | None => Raise ValueError
              end
  | CNone => Raise TypeError
  end.

Definition nonempty (s : string) : bool :=
  match s with
  | EmptyString => false
  | String _ _ => true
  end.

(** [[t.strip() for t in parts if t.strip()]] *)
Definition strip_nonempty (parts : list string) : list string :=
  List.map strip (List.filter (fun t => nonempty (strip t)) parts).

(** The body of the loop over the rows. *)
Definition load_row (row : gmap string cell) : outcome KnowledgeItem :=
  let* season_field := getitem row "season" in
  let* season_parts := split_cell ","%char season_field in
  let seasons := List.map strip season_parts in
  let* tags_parts := split_cell ";"%char (get row "tags" (CStr "")) in
  let tags := strip_nonempty tags_parts in
  let* climate_parts := split_cell ";"%char (get row "climate" (CStr "")) in
  let climate := strip_nonempty climate_parts in
  let* v_item := getitem row "item" in
  let* v_category := getitem row "category" in
  let* v_destination_type := getitem row "destination_type" in
  let* v_travel_type := getitem row "travel_type" in
  let* v_quantity := getitem row "quantity" in
  let* n_quantity := int v_quantity in
  let* v_reason := getitem row "reason" in
  let* v_importance := getitem row "importance" in
  Return {| item := v_item;
            category := v_category;
            destination_type := v_destination_type;
            travel_type := v_travel_type;
            season := seasons;
            quantity := n_quantity;
            reason := v_reason;
            importance := v_importance;
            tags := tags;
            climate := climate |}.

(** What iterating the reader gives next: a row, or an exception of the
    reader (an undecodable byte, a [csv.Error]). *)
Inductive read :=
| Row (row : gmap string cell)
| ReadError.

(** What [open(csv_path)] finds. *)
Inductive csv_file :=
| FileNotFound
| OpenError
| Opened (reads : list read).

(** The loop [for row in reader], with the list built so far. *)
Fixpoint load_rows (reads : list read) (items : list KnowledgeItem)
  : outcome (list KnowledgeItem) :=
  match reads with
  | [] => Return items
  | Row row :: rest =>
      let* it := load_row row in
      load_rows rest (items ++ [it])
  | ReadError :: _ => Raise OSError
  end.

(** [load_knowledge_base]: every exception ends the process with status 1. *)
Definition load_knowledge_base (f : csv_file) : outcome (list KnowledgeItem) :=
  match f with
  | FileNotFound => Exit 1
  | OpenError => Exit 1
  | Opened reads =>
      match load_rows reads [] with
      | Return items => Return items
      | Raise _ => Exit 1
      | Exit c => Exit c
      end
  end.

(** ** Text for the embedding request *)

Definition newline : string := String (ascii_of_nat 10) EmptyString.

(** The f-string of [create_embedding_text], before [.strip()]. *)
Definition embedding_template (it : KnowledgeItem) : string :=
  "Item: " +:+ to_str (item it) +:+ newline +:+
  "Category: " +:+ to_str (category it) +:+ newline +:+
  "Travel Type: " +:+ to_str (travel_type it) +:+ newline +:+
  "Destination: " +:+ to_str (destination_type it) +:+ newline +:+
  "Season: " +:+ join ", " (season it) +:+ newline +:+
  "Reason: " +:+ to_str (reason it) +:+ newline +:+
  "Tags: " +:+ join ", " (tags it) +:+ newline +:+
  "Climate: " +:+ join ", " (climate it) +:+ newline +:+
  "Importance: " +:+ to_str (importance it).

Definition create_embedding_text (it : KnowledgeItem) : string :=
  strip (embedding_template it).

(** ** Batch embedder *)

(** What the embedder does to the outside, in order. A call of the
    service is logged with what came back: the vectors of
    [response.data], or nothing when the client raised. *)
Inductive event :=
| Create (model : string) (input : list string) (dimensions : nat)
         (response : option (list (list float)))
| Sleep (seconds : Q).

(** The state [generate_embeddings] works on: its accumulator [points],
    how many service calls and identifiers were used up, and the log. *)
Record state := {
  points : list point;
  calls : nat;
  ids : nat;
  trace : list event
}.

Definition M (A : Type) : Type := state -> outcome A * state.

Definition ret {A} (a : A) : M A := fun s => (Return a, s).

Definition lift {A} (r : outcome A) : M A := fun s => (r, s).

Definition mbind {A B} (m : M A) (k : A -> M B) : M B :=
  fun s =>
    match m s with
    | (Return a, s') => k a s'
    | (Raise e, s') => (Raise e, s')
    | (Exit c, s') => (Exit c, s')
    end.

Notation "x <- m ;; k" := (mbind m (fun x => k))
  (at level 100, m at next level, right associativity).
Notation "m ;;; k" := (mbind m (fun _ => k))
  (at level 100, right associativity).

(** [time.sleep(seconds)] *)
Definition sleep (seconds : Q) : M unit :=
  fun s => (Return tt,
            {| points := points s; calls := calls s; ids := ids s;
               trace := trace s ++ [Sleep seconds] |}).

(** [points.append(p)] *)
Definition append_point (p : point) : M unit :=
  fun s => (Return tt,
            {| points := points s ++ [p]; calls := calls s; ids := ids s;
               trace := trace s |}).

(** [sys.exit(code)] *)
Definition sys_exit {A} (code : Z) : M A := fun s => (Exit code, s).

(** [l[i:j]] for indices inside [0, ...): out-of-range ends are clamped. *)
Definition slice {A} (l : list A) (i j : nat) : list A :=
  firstn (j - i) (skipn i l).

(** The indices [range(start, stop, step)] runs through, for a positive
    step. The loop counter needs at most [stop] rounds. *)
Fixpoint range_loop (fuel start stop step : nat) : list nat :=
  match fuel with
  | O => []
  | S fuel' =>
      if (start <? stop)%nat
      then start :: range_loop fuel' (start + step) stop step
      else []
  end.

(** [range(start, stop, step)]; a step of zero is refused. *)
Definition range (start stop step : nat) : outcome (list nat) :=
  if (step =? 0)%nat then Raise ValueError
  else Return (range_loop stop start stop step).

(** [enumerate(l)] *)
Definition enumerate {A} (l : list A) : list (nat * A) :=
  combine (seq 0 (length l)) l.

Section Embedder.

Variable cfg : config.

(** [client.embeddings.create]: what the service answers to the call
    number [n] of the run, given the model, the texts and the
    dimensionality asked for; [None] when the client raises. *)
Variable create :
  nat -> string -> list string -> nat -> option (list (list float)).

(** [str(uuid.uuid4())]: the identifier number [n] of the run. *)
Variable uuid4 : nat -> string.

Definition embeddings_create (input : list string) : M (list (list float)) :=
  fun s =>
    let response :=
      create (calls s) EMBEDDING_MODEL input EMBEDDING_DIMENSIONS in
    let s' := {| points := points s; calls := S (calls s); ids := ids s;
                 trace := trace s ++ [Create EMBEDDING_MODEL input
                                        EMBEDDING_DIMENSIONS response] |} in
    match response with
    | Some data => (Return data, s')
    | None => (Raise APIError, s')
    end.

Definition new_uuid : M string :=
  fun s => (Return (uuid4 (ids s)),
            {| points := points s; calls := calls s; ids := S (ids s);
               trace := trace s |}).

(** [batch[j]] *)
Definition batch_item (batch : list KnowledgeItem) (j : nat)
  : M KnowledgeItem :=
  match batch !! j with
  | Some it => ret it
  | None => lift (Raise IndexError)
  end.

(** The loop [for j, embedding_obj in enumerate(response.data)]. *)
Fixpoint format_points (data : list (nat * list float))
                       (batch : list KnowledgeItem) : M unit :=
  match data with
  | [] => ret tt
  | (j, embedding) :: rest =>
      it <- batch_item batch j ;;
      u <- new_uuid ;;
      append_point
        {| id := u;
           vector := embedding;
           payload := {| item := item it;
                         category := category it;
                         destination_type := destination_type it;
                         travel_type := travel_type it;
                         season := season it;
                         quantity := quantity it;
                         reason := reason it;
                         importance := importance it;
                         tags := tags it;
                         climate := climate it |} |} ;;;
      format_points rest batch
  end.

(** The body of the [try]: the call and the points made of its answer. *)
Definition try_batch (batch : list KnowledgeItem) (texts : list string)
  : M unit :=
  data <- embeddings_create texts ;;
  format_points (enumerate data) batch.

(** The loop [for attempt in range(RETRY_ATTEMPTS)] over the attempts
    still to come. A normal end of the [try] leaves the loop; an
    exception sleeps and goes on, or ends the process on the last
    attempt. *)
Fixpoint retry_loop (attempts : list nat) (batch : list KnowledgeItem)
                    (texts : list string) : M unit :=
  match attempts with
  | [] => ret tt
  | attempt :: rest =>
      fun s =>
        match try_batch batch texts s with
        | (Return _, s') => (Return tt, s')
        | (Raise _, s') =>
            if (Z.of_nat attempt <? Z.of_nat (RETRY_ATTEMPTS cfg) - 1)%Z
            then (sleep RETRY_DELAY ;;; retry_loop rest batch texts) s'
            else sys_exit 1 s'
        | (Exit c, s') => (Exit c, s')
        end
  end.

(** One round of the loop over the batches, for the start index [i]. *)
Definition process_batch (items : list KnowledgeItem) (i : nat) : M unit :=
  let batch := slice items i (i + BATCH_SIZE cfg) in
  let texts := List.map create_embedding_text batch in
  retry_loop (seq 0 (RETRY_ATTEMPTS cfg)) batch texts ;;;
  if (i + BATCH_SIZE cfg <? length items)%nat
  then sleep (1 # 2)
  else ret tt.

Fixpoint batch_loop (items : list KnowledgeItem) (starts : list nat)
  : M unit :=
  match starts with
  | [] => ret tt
  | i :: rest => process_batch items i ;;; batch_loop items rest
  end.

(** [generate_embeddings(items, api_key)], from the state it is entered
    in; [points] starts empty. *)
Definition generate_embeddings (items : list KnowledgeItem)
  : M (list point) :=
  fun s =>
    let s0 := {| points := []; calls := calls s; ids := ids s;
                 trace := trace s |} in
    (starts <- lift (range 0 (length items) (BATCH_SIZE cfg)) ;;
     batch_loop items starts ;;;
     (fun s1 => (Return (points s1), s1))) s0.

End Embedder.

Definition initial_state : state :=
  {| points := []; calls := 0; ids := 0; trace := [] |}.

(** ** Statistics *)

Definition is_none (v : cell) : bool :=
  match v with CNone => true | CStr _ => false end.

Definition is_text (v : cell) : bool :=
  match v with CStr _ => true | CNone => false end.

(** [sorted(counts.items())] orders the pairs by their key, and [None]
    does not compare with a string: the keys sort when they are not a mix
    of both. *)
Definition sortable (keys : list cell) : bool :=
  negb (existsb is_none keys && existsb is_text keys).

(** [print_statistics]: only what can go wrong in it. The importances are
    sorted by a numeric key and always sort. *)
Definition print_statistics (items : list KnowledgeItem) : outcome unit :=
  if sortable (List.map category items) then
    if sortable (List.map travel_type items) then Return tt
    else Raise TypeError
  else Raise TypeError.

(** ** Writer and orchestration *)

Record metadata := {
  total_items : nat;
  embedding_model : string;
  dimensions : nat;
  generated_at : string
}.

(** The object handed to [json.dump]. *)
Record document := {
  doc_points : list point;
  doc_metadata : metadata
}.

(** What [OUTPUT_FILE] holds: a whole document, or the beginning of one
    when the write broke off after the file was opened. *)
Inductive file :=
| Complete (d : document)
| Truncated.

(** How the disk behaves when the writer runs. *)
Inductive disk :=
| Writable
| OpenFails
| WriteFails.

Record world := {
  run : state;
  output_file : option file
}.

Section Program.

Variable cfg : config.
Variable create :
  nat -> string -> list string -> nat -> option (list (list float)).
Variable uuid4 : nat -> string.

(** [time.strftime('%Y-%m-%d %H:%M:%S')] when the writer runs. *)
Variable strftime : string.

Variable the_disk : disk.

Definition save_embeddings (pts : list point) (w : world)
  : outcome unit * world :=
  match the_disk with
  | OpenFails => (Exit 1, w)
  | WriteFails => (Exit 1, {| run := run w; output_file := Some Truncated |})
  | Writable =>
      (Return tt,
       {| run := run w;
          output_file :=
            Some (Complete
                    {| doc_points := pts;
                       doc_metadata :=
                         {| total_items := length pts;
                            embedding_model := EMBEDDING_MODEL;
                            dimensions := EMBEDDING_DIMENSIONS;
                            generated_at := strftime |} |}) |})
  end.

(** [main()], given [os.getenv('OPENAI_API_KEY')] and the input file. *)
Definition main (api_key : option string) (f : csv_file) (w : world)
  : outcome unit * world :=
  match api_key with
  | None => (Exit 1, w)
  | Some EmptyString => (Exit 1, w)
  | Some (String _ _) =>
      match load_knowledge_base f with
      | Raise e => (Raise e, w)
      | Exit c => (Exit c, w)
      | Return items =>
          match print_statistics items with
          | Raise e => (Raise e, w)
          | Exit c => (Exit c, w)
          | Return _ =>
              match generate_embeddings cfg create uuid4 items (run w) with
              | (Raise e, s) =>
                  (Raise e, {| run := s; output_file := output_file w |})
              | (Exit c, s) =>
                  (Exit c, {| run := s; output_file := output_file w |})
              | (Return pts, s) =>
                  save_embeddings pts
                    {| run := s; output_file := output_file w |}
              end
          end
      end
  end.

(** The script as a process: its exit status and the world it leaves.
    An exception that reaches the top is reported and gives status 1. *)
Definition script (api_key : option string) (f : csv_file) (w : world)
  : Z * world :=
  match main api_key f w with
  | (Return _, w') => (0%Z, w')
  | (Raise _, w') => (1%Z, w')
  | (Exit c, w') => (c, w')
  end.

End Program.

Definition initial_world (existing : option file) : world :=
  {| run := initial_state; output_file := existing |}.

(** ** Predicates used in the statements *)

Definition starts_with_space (s : string) : bool :=
  match s with
  | EmptyString => false
  | String c _ => isspace c
  end.

Fixpoint ends_with_space (s : string) : bool :=
  match s with
  | EmptyString => false
  | String c EmptyString => isspace c
  | String _ s' => ends_with_space s'
  end.

(** No white space at either end. *)
Definition trimmed (s : string) : bool :=
  negb (starts_with_space s) && negb (ends_with_space s).

(** ** Reading a run *)

(** The points a response gives when it is laid over the items of a batch,
    the first identifier being number [n]: one point per pair, until
    either list ends. *)
Fixpoint make_points (uuid4 : nat -> string) (n : nat)
                     (data : list (list float)) (batch : list KnowledgeItem)
  : list point :=
  match data, batch with
  | embedding :: data', it :: batch' =>
      {| id := uuid4 n; vector := embedding; payload := it |}
        :: make_points uuid4 (S n) data' batch'
  | _, _ => []
  end.

(** The texts of the service calls of a log, in order. *)
Definition create_inputs (t : list event) : list (list string) :=
  flat_map (fun e => match e with
                     | Create _ input _ _ => [input]
                     | Sleep _ => []
                     end) t.

(** The pause between two batches, as against the pause before a retry. *)
Definition is_rate_limit_sleep (e : event) : bool :=
  match e with
  | Sleep seconds => Qeq_bool seconds (1 # 2)
  | Create _ _ _ _ => false
  end.

Definition rate_limit_sleeps (t : list event) : nat :=
  length (List.filter is_rate_limit_sleep t).

(** ceil(n / b) *)
Definition ceil_div (n b : nat) : nat := (n + (b - 1)) / b.

Definition total (l : list nat) : nat := fold_right Nat.add 0 l.

(** [k] calls in a row for each batch, [k] taken from [counts]. *)
Fixpoint repeated_texts (batches : list (list KnowledgeItem))
                        (counts : list nat) : list (list string) :=
  match batches, counts with
  | b :: batches', k :: counts' =>
      repeat (List.map create_embedding_text b) k
        ++ repeated_texts batches' counts'
  | _, _ => []
  end.

(** The log of [m] attempts at the same texts that all raised, each
    followed by the pause before the next attempt. *)
Definition failed_attempts (texts : list string) (m : nat) : list event :=
  concat (repeat [Create EMBEDDING_MODEL texts EMBEDDING_DIMENSIONS None;
                  Sleep RETRY_DELAY] m).

(** The log of the loop over the batches, put together from the logs of
    the rounds: after the log of a round comes the pause, if its condition
    [i + BATCH_SIZE < len(items)] holds. *)
Fixpoint round_logs (n b : nat) (starts : list nat) (logs : list (list event))
  : list event :=
  match starts, logs with
  | i :: starts', T :: logs' =>
      T ++ (if (i + b <? n)%nat then [Sleep (1 # 2)] else [])
        ++ round_logs n b starts' logs'
  | _, _ => []
  end.

(** Logs put one after the other with [sep] between two neighbours, and
    nowhere else. *)
Fixpoint join_logs (sep : list event) (logs : list (list event)) : list event :=
  match logs with
  | [] => []
  | [T] => T
  | T :: rest => T ++ sep ++ join_logs sep rest
  end.

(** The log of the round of one batch: [k] calls, all with the texts of
    the batch, at most one per attempt allowed, and no pause between
    batches. *)
Definition round_log_of (cfg : config) (batch : list KnowledgeItem)
                        (T : list event) : Prop :=
  exists k,
    create_inputs T = repeat (List.map create_embedding_text batch) k
    /\ k <= RETRY_ATTEMPTS cfg
    /\ (0 < RETRY_ATTEMPTS cfg -> 1 <= k)
    /\ rate_limit_sleeps T = 0.

(** The batches the loop of [generate_embeddings] goes through: the
    slices [items[i:i + b]] at the indices of [range(0, len(items), b)]. *)
Definition batches_of (items : list KnowledgeItem) (b : nat)
  : list (list KnowledgeItem) :=
  List.map (fun i => slice items i (i + b))
           (range_loop (length items) 0 (length items) b).

(** ** The counters of the statistics *)

#[global] Instance cell_eq_dec : EqDecision cell.
Proof. solve_decision. Defined.

#[global] Instance cell_countable : Countable cell :=
  inj_countable'
    (fun v => match v with CStr s => Some s | CNone => None end)
    (fun o => match o with Some s => CStr s | None => CNone end)
    (fun v => match v with CStr _ => eq_refl | CNone => eq_refl end).

(** The loop [counts[k] = counts.get(k, 0) + 1] over the items, [k] being
    the category, the travel type or the importance of the item. *)
Definition count_by (key : KnowledgeItem -> cell)
                    (items : list KnowledgeItem) : gmap cell nat :=
  fold_left (fun counts it =>
               <[key it := match counts !! key it with
                           | Some n => n
                           | None => 0
                           end + 1]> counts)
            items ∅.

(** How many of the items have the value [v] under [key]. *)
Definition occurrences (key : KnowledgeItem -> cell) (v : cell)
                       (items : list KnowledgeItem) : nat :=
  length (List.filter (fun it => bool_decide (key it = v)) items).

(** ** Sample inputs *)

(** The row of the end-to-end example. *)
Definition passport_row : gmap string cell :=
  list_to_map
    [("item", CStr "Passport"); ("category", CStr "documents");
     ("destination_type", CStr "international");
     ("travel_type", CStr "business"); ("season", CStr "all");
     ("quantity", CStr "1"); ("reason", CStr "required");
     ("importance", CStr "critical"); ("tags", CStr "essential");
     ("climate", CStr "any")].

Definition passport : KnowledgeItem :=
  {| item := CStr "Passport"; category := CStr "documents";
     destination_type := CStr "international";
     travel_type := CStr "business"; season := ["all"]; quantity := 1;
     reason := CStr "required"; importance := CStr "critical";
     tags := ["essential"]; climate := ["any"] |}.

(** A season field with nothing between two commas. *)
Definition season_gap_row : gmap string cell :=
  <["season" := CStr "summer,,winter"]> passport_row.

(** A quantity below zero, and one that is no number. *)
Definition negative_quantity_row : gmap string cell :=
  <["quantity" := CStr "-3"]> passport_row.

Definition worded_quantity_row : gmap string cell :=
  <["quantity" := CStr "two"]> passport_row.

(** Blanks around the separators. *)
Definition spaced_row : gmap string cell :=
  <["season" := CStr " summer , winter "]>
    (<["tags" := CStr "a ; b"]> (<["climate" := CStr " hot;; cold "]> passport_row)).

Definition spaced_item : KnowledgeItem :=
  {| item := CStr "Passport"; category := CStr "documents";
     destination_type := CStr "international";
     travel_type := CStr "business"; season := ["summer"; "winter"];
     quantity := 1; reason := CStr "required";
     importance := CStr "critical"; tags := ["a"; "b"];
     climate := ["hot"; "cold"] |}.

(** An entry whose importance field was left empty. *)
Definition unranked : KnowledgeItem :=
  {| item := CStr "Passport"; category := CStr "documents";
     destination_type := CStr "international";
     travel_type := CStr "business"; season := ["all"]; quantity := 1;
     reason := CStr "required"; importance := CStr "";
     tags := ["essential"]; climate := ["any"] |}.

(** The passport, twice. *)
Definition two_passports : KnowledgeItem :=
  {| item := CStr "Passport"; category := CStr "documents";
     destination_type := CStr "international";
     travel_type := CStr "business"; season := ["all"]; quantity := 2;
     reason := CStr "required"; importance := CStr "critical";
     tags := ["essential"]; climate := ["any"] |}.

(** Batches of two, three attempts each. *)
Definition small_config : config :=
  {| BATCH_SIZE := 2; RETRY_ATTEMPTS := 3 |}.

Definition five_items : list KnowledgeItem :=
  [passport; unranked; two_passports; spaced_item; passport].

Definition four_items : list KnowledgeItem :=
  [passport; unranked; two_passports; spaced_item].

(** A service that answers every call, one vector of the dimensionality
    asked for per text. *)
Definition steady_service (c : nat) (model : string) (texts : list string)
                          (d : nat) : option (list (list float)) :=
  Some (List.map (fun _ => repeat (S754_zero false) d) texts).

(** A service that raises on its first [n] calls and answers from then on. *)
Definition late_service (n : nat) (c : nat) (model : string)
                        (texts : list string) (d : nat)
  : option (list (list float)) :=
  if (c <? n)%nat then None else steady_service c model texts d.

(** A service that raises on every call. *)
Definition dead_service (c : nat) (model : string) (texts : list string)
                        (d : nat) : option (list (list float)) :=
  None.

Definition sample_uuid4 (n : nat) : string :=
  "id-" +:+ String (ascii_of_nat (97 + n)) EmptyString.

(** Five items in batches of two; the first call of the service raises. *)
Definition sample_run : outcome (list point) * state :=
  generate_embeddings small_config (late_service 1) sample_uuid4 five_items
                      initial_state.

(** Four items in batches of two, nothing goes wrong. *)
Definition even_run : outcome (list point) * state :=
  generate_embeddings small_config steady_service sample_uuid4 four_items
                      initial_state.

(** One item under the shipped constants; the first call raises. *)
Definition retried_run : outcome (list point) * state :=
  generate_embeddings script_config (late_service 1) sample_uuid4 [passport]
                      initial_state.

(** A service that answers its first [n] calls and raises from then on. *)
Definition early_service (n : nat) (c : nat) (model : string)
                         (texts : list string) (d : nat)
  : option (list (list float)) :=
  if (c <? n)%nat then steady_service c model texts d else None.

Definition three_rows : csv_file :=
  Opened [Row passport_row; Row passport_row; Row passport_row].

Definition two_items : list KnowledgeItem := [passport; unranked].

Definition three_passports : list KnowledgeItem :=
  [passport; passport; passport].

Definition two_texts : list string :=
  List.map create_embedding_text two_items.

Definition two_vectors : list (list float) :=
  List.map (fun _ => repeat (S754_zero false) EMBEDDING_DIMENSIONS) two_texts.

(** The state after the first of the two batches of [three_passports],
    served by a service that answers one call only. *)
Definition after_first_batch : state :=
  snd (batch_loop small_config (early_service 1) sample_uuid4
         three_passports [0] initial_state).

(** A service whose first answer carries one vector too many. *)
Definition overlong_service (c : nat) (model : string) (texts : list string)
                            (d : nat) : option (list (list float)) :=
  if (c =? 0)%nat
  then Some (repeat (S754_zero false) d
               :: List.map (fun _ => repeat (S754_zero false) d) texts)
  else steady_service c model texts d.

(** ** More predicates used in the statements *)

(** The character [c] stands somewhere in [s]. *)
Fixpoint occurs (c : ascii) (s : string) : bool :=
  match s with
  | EmptyString => false
  | String d s' => Ascii.eqb d c || occurs c s'
  end.

(** How many times [c] stands in [s]. *)
Fixpoint count_char (c : ascii) (s : string) : nat :=
  match s with
  | EmptyString => 0
  | String d s' => (if Ascii.eqb d c then 1 else 0) + count_char c s'
  end.

(** The log of one round of the loop over the batches: the attempts that
    failed, each with the pause that follows it, and then the last
    attempt. *)
Definition round_log (texts : list string)
                     (failed : list (option (list (list float))))
                     (last : option (list (list float))) : list event :=
  flat_map (fun r => [Create EMBEDDING_MODEL texts EMBEDDING_DIMENSIONS r;
                      Sleep RETRY_DELAY]) failed
  ++ [Create EMBEDDING_MODEL texts EMBEDDING_DIMENSIONS last].

(** An attempt fails when the client raises, or when the answer holds
    more vectors than the batch has items. *)
Definition attempt_fails (batch : list KnowledgeItem)
                         (r : option (list (list float))) : bool :=
  match r with
  | None => true
  | Some data => negb (length data <=? length batch)%nat
  end.

(** [T] is the log of a round on [batch] that ended well ([ok]) or that
    ended the process: fewer failed attempts than the ceiling, then a last
    attempt that passed, or that failed as the last one allowed. *)
Definition round_of (cfg : config) (batch : list KnowledgeItem) (ok : bool)
                    (T : list event) : Prop :=
  exists failed last,
    T = round_log (List.map create_embedding_text batch) failed last
    /\ Forall (fun r => attempt_fails batch r = true) failed
    /\ length failed < RETRY_ATTEMPTS cfg
    /\ attempt_fails batch last = negb ok
    /\ (ok = false -> S (length failed) = RETRY_ATTEMPTS cfg).

(** The pauses before a retry in a log. *)
Definition retry_sleeps (t : list event) : nat :=
  length (List.filter (fun e => match e with
                                | Sleep seconds => Qeq_bool seconds RETRY_DELAY
                                | Create _ _ _ _ => false
                                end) t).

(** A request with the model and the dimensionality of the script and
    with one to [b] texts, or one of the two pauses. *)
Definition well_formed_event (b : nat) (e : event) : Prop :=
  match e with
  | Create model input dimensions _ =>
      model = "text-embedding-3-small" /\ dimensions = 1536
      /\ 1 <= length input <= b
  | Sleep seconds => seconds = 2 # 1 \/ seconds = 1 # 2
  end.

(** The calls of a log that were answered, with their answers. *)
Definition answered (t : list event)
  : list (list string * list (list float)) :=
  flat_map (fun e => match e with
                     | Create _ input _ (Some data) => [(input, data)]
                     | _ => []
                     end) t.

(** Three items in batches of two; the service answers one call only, so
    the second batch runs out of attempts. *)
Definition aborted_run : outcome (list point) * state :=
  generate_embeddings small_config (early_service 1) sample_uuid4
                      three_passports initial_state.

(** A line that stops before its last field, in a file whose header names
    the category last: the reader leaves [None] under that column. *)
Definition short_row : gmap string cell :=
  <["category" := CNone]> passport_row.

(** * Properties *)

(** ** Outcomes *)

Lemma bind_Return_inv {A B} (m : outcome A) (k : A -> outcome B) (b : B) :
  bind m k = Return b -> exists a, m = Return a /\ k a = Return b.
Proof. destruct m; simpl; intros H; try discriminate. eauto. Qed.

Lemma getitem_Return_inv (row : gmap string cell) key v :
  getitem row key = Return v -> row !! key = Some v.
Proof. unfold getitem. destruct (row !! key); intros H; congruence. Qed.

Lemma split_cell_Return_inv sep v parts :
  split_cell sep v = Return parts -> exists s, v = CStr s /\ parts = split sep s.
Proof. destruct v; simpl; intros H; try discriminate. injection H as <-. eauto. Qed.

Lemma int_Return_inv v z :
  int v = Return z -> exists s, v = CStr s /\ py_int s = Some z.
Proof.
  destruct v as [s|]; simpl; try discriminate.
  destruct (py_int s) eqn:E; intros H; try discriminate.
  injection H as <-. eauto.
Qed.

(** ** Strings *)

Lemma lstrip_front s : starts_with_space (lstrip s) = false.
Proof.
  induction s as [|c s IH]; simpl; [reflexivity|].
  destruct (isspace c) eqn:E; [exact IH|]. simpl. exact E.
Qed.

Lemma rstrip_back s : ends_with_space (rstrip s) = false.
Proof.
  induction s as [|c s IH]; simpl; [reflexivity|].
  destruct (rstrip s) as [|d r] eqn:E.
  - destruct (isspace c) eqn:Ec; simpl; [reflexivity | exact Ec].
  - simpl in *. exact IH.
Qed.

Lemma rstrip_front s :
  starts_with_space s = false -> starts_with_space (rstrip s) = false.
Proof.
  destruct s as [|c s]; simpl; [reflexivity|]. intros Hc.
  destruct (rstrip s); [rewrite Hc|]; simpl; exact Hc.
Qed.

Lemma strip_trimmed s : trimmed (strip s) = true.
Proof.
  unfold trimmed, strip.
  rewrite rstrip_back, (rstrip_front _ (lstrip_front s)). reflexivity.
Qed.

Lemma Forall_map_strip (parts : list string) :
  Forall (fun s => trimmed s = true) (List.map strip parts).
Proof. induction parts; simpl; constructor; auto using strip_trimmed. Qed.

Lemma strip_nonempty_trimmed (parts : list string) :
  Forall (fun s => trimmed s = true) (strip_nonempty parts).
Proof. apply Forall_map_strip. Qed.

Lemma strip_nonempty_no_empty (parts : list string) :
  Forall (fun s => s <> EmptyString) (strip_nonempty parts).
Proof.
  unfold strip_nonempty. induction parts as [|t parts IH]; simpl; [constructor|].
  destruct (nonempty (strip t)) eqn:E; simpl; [|exact IH].
  constructor; [|exact IH]. intros H. rewrite H in E. discriminate.
Qed.

Lemma strip_nonempty_sublist (parts : list string) :
  strip_nonempty parts `sublist_of` List.map strip parts.
Proof.
  unfold strip_nonempty. induction parts as [|t parts IH]; simpl; [constructor|].
  destruct (nonempty (strip t)); simpl; by constructor.
Qed.

(** ** Loader *)

(** What a row that loads looked like, field by field. *)
Lemma load_row_Return (row : gmap string cell) (it : KnowledgeItem) :
  load_row row = Return it ->
  (exists s, row !! "season" = Some (CStr s)
             /\ season it = List.map strip (split ","%char s))
  /\ (exists s, get row "tags" (CStr "") = CStr s
                /\ tags it = strip_nonempty (split ";"%char s))
  /\ (exists s, get row "climate" (CStr "") = CStr s
                /\ climate it = strip_nonempty (split ";"%char s))
  /\ (exists s, row !! "quantity" = Some (CStr s)
                /\ py_int s = Some (quantity it))
  /\ row !! "item" = Some (item it)
  /\ row !! "category" = Some (category it)
  /\ row !! "destination_type" = Some (destination_type it)
  /\ row !! "travel_type" = Some (travel_type it)
  /\ row !! "reason" = Some (reason it)
  /\ row !! "importance" = Some (importance it).
Proof.
  unfold load_row. intros H.
  repeat match type of H with
         | bind _ _ = Return _ =>
             let a := fresh "v" in let E := fresh "E" in
             apply bind_Return_inv in H; destruct H as (a & E & H)
         end.
  injection H as <-. simpl.
  repeat match goal with
         | E : getitem _ _ = Return _ |- _ => apply getitem_Return_inv in E
         | E : split_cell _ _ = Return _ |- _ =>
             apply split_cell_Return_inv in E; destruct E as (? & ? & ?)
         | E : int _ = Return _ |- _ =>
             apply int_Return_inv in E; destruct E as (? & ? & ?)
         end.
  subst. repeat split; eauto.
Qed.

(** Rows and loaded items go in pairs, in order. *)
Lemma load_rows_Return (reads : list read) (acc items : list KnowledgeItem) :
  load_rows reads acc = Return items ->
  exists new, items = acc ++ new
    /\ Forall2 (fun rd it => exists row, rd = Row row /\ load_row row = Return it)
               reads new.
Proof.
  revert acc. induction reads as [|rd reads IH]; simpl; intros acc H.
  - injection H as <-. exists []. split; [by rewrite app_nil_r | constructor].
  - destruct rd as [row|]; [|discriminate].
    apply bind_Return_inv in H. destruct H as (it & E & H).
    destruct (IH _ H) as (new & -> & F).
    exists (it :: new). split; [by rewrite <- app_assoc|].
    constructor; eauto.
Qed.

Lemma load_knowledge_base_Return (f : csv_file) (items : list KnowledgeItem) :
  load_knowledge_base f = Return items ->
  exists reads, f = Opened reads
    /\ Forall2 (fun rd it => exists row, rd = Row row /\ load_row row = Return it)
               reads items.
Proof.
  destruct f as [| |reads]; simpl; try discriminate.
  destruct (load_rows reads []) as [l|e|c] eqn:E; intros H; try discriminate.
  injection H as <-. apply load_rows_Return in E.
  destruct E as (new & -> & F). eauto.
Qed.

Lemma loaded_item_has_row (f : csv_file) items it :
  load_knowledge_base f = Return items -> In it items ->
  exists row, load_row row = Return it.
Proof.
  intros H Hin. apply load_knowledge_base_Return in H.
  destruct H as (reads & _ & F).
  induction F as [|rd it' reads items (row & _ & E) F IH]; [destruct Hin|].
  destruct Hin as [<-|Hin]; eauto.
Qed.

Example py_int_samples :
  py_int "12" = Some 12%Z /\ py_int " 7 " = Some 7%Z
  /\ py_int "+5" = Some 5%Z /\ py_int "-3" = Some (-3)%Z
  /\ py_int "1_000" = Some 1000%Z /\ py_int "" = None
  /\ py_int "two" = None /\ py_int "1.5" = None /\ py_int "1__0" = None.
Proof. repeat split; reflexivity. Qed.

Example passport_row_loads :
  load_knowledge_base (Opened [Row passport_row]) = Return [passport].
Proof. vm_compute. reflexivity. Qed.

(** In [tags] and [climate] nothing is empty. *)
Lemma loaded_tags_climate_no_empty (f : csv_file) items it :
  load_knowledge_base f = Return items -> In it items ->
  Forall (fun s => s <> EmptyString) (tags it)
  /\ Forall (fun s => s <> EmptyString) (climate it).
Proof.
  intros H Hin. destruct (loaded_item_has_row _ _ _ H Hin) as (row & E).
  apply load_row_Return in E.
  destruct E as (_ & (? & _ & ->) & (? & _ & ->) & _).
  split; apply strip_nonempty_no_empty.
Qed.

(** The three lists keep the order of the sub-fields of their field. *)
Lemma loaded_lists_in_order (row : gmap string cell) it :
  load_row row = Return it ->
  (exists s, row !! "season" = Some (CStr s)
             /\ season it = List.map strip (split ","%char s))
  /\ (exists s, get row "tags" (CStr "") = CStr s
       /\ tags it `sublist_of` List.map strip (split ";"%char s))
  /\ (exists s, get row "climate" (CStr "") = CStr s
       /\ climate it `sublist_of` List.map strip (split ";"%char s)).
Proof.
  intros E. apply load_row_Return in E.
  destruct E as (Hs & (t & Ht & ->) & (c & Hc & ->) & _).
  repeat split; eauto using strip_nonempty_sublist.
Qed.

(** C4. The season list is not cleared of empty entries: the row whose
    season field is [summer,,winter] loads with the season list
    [summer], the empty string, [winter]. The filter that [tags] and
    [climate] go through is not applied to [season]. *)
Theorem season_keeps_empty_entry :
  exists it,
    load_knowledge_base (Opened [Row season_gap_row]) = Return [it]
    /\ season it = ["summer"; ""; "winter"]
    /\ In EmptyString (season it).
Proof.
  eexists. split; [vm_compute; reflexivity|].
  split; [reflexivity | right; left; reflexivity].
Qed.

(** C10. Every element of the season, tags and climate lists of a loaded
    item is free of white space at both ends. *)
Theorem loaded_lists_stripped (f : csv_file) items it :
  load_knowledge_base f = Return items -> In it items ->
  Forall (fun s => trimmed s = true) (season it)
  /\ Forall (fun s => trimmed s = true) (tags it)
  /\ Forall (fun s => trimmed s = true) (climate it).
Proof.
  intros H Hin. destruct (loaded_item_has_row _ _ _ H Hin) as (row & E).
  apply load_row_Return in E.
  destruct E as ((? & _ & ->) & (? & _ & ->) & (? & _ & ->) & _).
  repeat split;
    [apply Forall_map_strip | apply strip_nonempty_trimmed
     | apply strip_nonempty_trimmed].
Qed.

Lemma loaded_lists_stripped_witness :
  load_knowledge_base (Opened [Row spaced_row]) = Return [spaced_item]
  /\ tags spaced_item = ["a"; "b"]
  /\ (Forall (fun s => trimmed s = true) (season spaced_item)
      /\ Forall (fun s => trimmed s = true) (tags spaced_item)
      /\ Forall (fun s => trimmed s = true) (climate spaced_item)).
Proof.
  split; [vm_compute; reflexivity|]. split; [reflexivity|].
  apply (loaded_lists_stripped (Opened [Row spaced_row]) [spaced_item] spaced_item).
  - vm_compute. reflexivity.
  - left. reflexivity.
Defined.

(** A quantity field that [int] refuses ends the load, wherever the row
    stands. *)
Lemma load_rows_bad_quantity (reads : list read) acc row q :
  In (Row row) reads -> row !! "quantity" = Some (CStr q) -> py_int q = None ->
  forall items, load_rows reads acc <> Return items.
Proof.
  intros Hin Hq Hbad items H.
  apply load_rows_Return in H. destruct H as (new & _ & F).
  induction F as [|rd it reads new (row' & -> & E) F IH]; [destruct Hin|].
  destruct Hin as [Heq|Hin]; [|auto].
  injection Heq as ->. apply load_row_Return in E.
  destruct E as (_ & _ & _ & (s & Hs & Hint) & _). congruence.
Qed.

(** C8, as the loader has it: the quantity of each loaded item is the
    integer that [int] reads in the quantity field of its row, whatever
    its sign; and a quantity field that [int] refuses, in any row, ends the
    process with status 1, no list being returned. *)
Theorem quantity_parsed_or_fatal (reads : list read) :
  (forall items,
      load_knowledge_base (Opened reads) = Return items ->
      Forall2 (fun rd it => exists row q,
                   rd = Row row /\ row !! "quantity" = Some (CStr q)
                   /\ py_int q = Some (quantity it))
              reads items)
  /\ (forall row q,
        In (Row row) reads -> row !! "quantity" = Some (CStr q) ->
        py_int q = None ->
        load_knowledge_base (Opened reads) = Exit 1).
Proof.
  split.
  - intros items H. apply load_knowledge_base_Return in H.
    destruct H as (reads' & Heq & F). injection Heq as <-.
    induction F as [|rd it reads items (row & -> & E) F IH]; constructor; auto.
    apply load_row_Return in E.
    destruct E as (_ & _ & _ & (q & Hq & Hint) & _). eauto.
  - intros row q Hin Hq Hbad. simpl.
    pose proof (load_rows_bad_quantity reads [] row q Hin Hq Hbad) as Hno.
    destruct (load_rows reads []) as [l|e|c] eqn:E.
    + destruct (Hno l eq_refl).
    + reflexivity.
    + exfalso. clear Hno Hin. revert E. generalize (@nil KnowledgeItem).
      induction reads as [|[r|] reads IH]; simpl; intros acc E; try discriminate.
      destruct (load_row r) eqn:Er; simpl in E; try discriminate; eauto.
      clear -Er. unfold load_row in Er.
      repeat match type of Er with
             | bind ?m _ = Exit _ =>
                 let E := fresh "E" in destruct m eqn:E; simpl in Er;
                 try discriminate
             end;
      repeat match goal with
             | E : getitem _ _ = Exit _ |- _ =>
                 unfold getitem in E; destruct (_ !! _) in E; discriminate
             | E : split_cell _ ?v = Exit _ |- _ => destruct v; discriminate
             | E : int ?v = Exit _ |- _ =>
                 unfold int in E; destruct v; [destruct (py_int _) in E|];
                 discriminate
             end.
Qed.

Lemma quantity_parsed_or_fatal_witness :
  Forall2 (fun rd it => exists row q,
               rd = Row row /\ row !! "quantity" = Some (CStr q)
               /\ py_int q = Some (quantity it))
          [Row passport_row] [passport]
  /\ load_knowledge_base (Opened [Row passport_row; Row worded_quantity_row])
     = Exit 1.
Proof.
  split.
  - apply (proj1 (quantity_parsed_or_fatal [Row passport_row]) [passport]).
    vm_compute. reflexivity.
  - apply (proj2 (quantity_parsed_or_fatal
                    [Row passport_row; Row worded_quantity_row])
             worded_quantity_row "two").
    + right. left. reflexivity.
    + vm_compute. reflexivity.
    + vm_compute. reflexivity.
Defined.

(** C8 as stated fails: a quantity field [-3] loads, as the integer -3,
    so not every loaded quantity is at least zero. *)
Lemma negative_quantity_loads :
  (exists it,
      load_knowledge_base (Opened [Row negative_quantity_row]) = Return [it]
      /\ quantity it = (-3)%Z)
  /\ ~ (forall f items it,
          load_knowledge_base f = Return items -> In it items ->
          (0 <= quantity it)%Z).
Proof.
  assert (E : load_knowledge_base (Opened [Row negative_quantity_row])
              = Return [ {| item := CStr "Passport"; category := CStr "documents";
                            destination_type := CStr "international";
                            travel_type := CStr "business"; season := ["all"];
                            quantity := -3; reason := CStr "required";
                            importance := CStr "critical";
                            tags := ["essential"]; climate := ["any"] |} ])
    by (vm_compute; reflexivity).
  split.
  - eexists. split; [exact E | reflexivity].
  - intros H. specialize (H _ _ _ E (or_introl eq_refl)). simpl in H. lia.
Qed.

(** ** The embedding text *)

Lemma rstrip_app_keep (a b : string) :
  rstrip b <> EmptyString -> rstrip (a +:+ b) = a +:+ rstrip b.
Proof.
  intros Hb. induction a as [|c a IH]; simpl; [reflexivity|].
  rewrite IH. destruct a; simpl; [|reflexivity].
  destruct (rstrip b); [contradiction | reflexivity].
Qed.

Lemma rstrip_app_nonempty (a b : string) :
  rstrip b <> EmptyString -> rstrip (a +:+ b) <> EmptyString.
Proof.
  intros Hb. rewrite rstrip_app_keep by assumption.
  destruct a; simpl; [assumption | discriminate].
Qed.

Lemma rstrip_app_drop (a b : string) :
  rstrip b = EmptyString -> rstrip (a +:+ b) = rstrip a.
Proof.
  intros Hb. induction a as [|c a IH]; simpl; [exact Hb|].
  rewrite IH. reflexivity.
Qed.

Lemma rstrip_cons (c : ascii) (s : string) :
  rstrip (String c s)
  = match rstrip s with
    | EmptyString => if isspace c then EmptyString else String c EmptyString
    | String d r => String c (String d r)
    end.
Proof. reflexivity. Qed.

Lemma rstrip_id (s : string) : ends_with_space s = false -> rstrip s = s.
Proof.
  induction s as [|c s IH]; simpl; [reflexivity|].
  destruct s as [|d s].
  - simpl. intros ->. reflexivity.
  - intros H. rewrite (IH H). reflexivity.
Qed.

(** What is left of the last line: the label, and after one blank the
    importance without the white space at its end, if anything is left
    of it. *)
Lemma rstrip_importance_line (imp : string) :
  rstrip ("Importance: " +:+ imp)
  = "Importance:" +:+ match rstrip imp with
                      | EmptyString => EmptyString
                      | String c r => " " +:+ String c r
                      end.
Proof.
  change ("Importance: " +:+ imp) with ("Importance:" +:+ String " " imp).
  pose proof (rstrip_cons " " imp) as C.
  destruct (rstrip imp) as [|c r] eqn:E.
  - rewrite rstrip_app_drop; [reflexivity | exact C].
  - rewrite rstrip_app_keep; rewrite C; [reflexivity | discriminate].
Qed.

Lemma rstrip_importance_line_nonempty (imp : string) :
  rstrip ("Importance: " +:+ imp) <> EmptyString.
Proof. rewrite rstrip_importance_line. discriminate. Qed.

(** C5, as the code has it: the text is the template with the white space
    at its end removed. Every line up to the label of the last one is the
    template's; the importance follows its label without its own trailing
    white space, and the blank after the label goes too when nothing is
    left of the importance. When the importance is not empty and does not
    end in white space, the text is the template. *)
Theorem create_embedding_text_template (it : KnowledgeItem) :
  create_embedding_text it
  = "Item: " +:+ to_str (item it) +:+ newline +:+
    "Category: " +:+ to_str (category it) +:+ newline +:+
    "Travel Type: " +:+ to_str (travel_type it) +:+ newline +:+
    "Destination: " +:+ to_str (destination_type it) +:+ newline +:+
    "Season: " +:+ join ", " (season it) +:+ newline +:+
    "Reason: " +:+ to_str (reason it) +:+ newline +:+
    "Tags: " +:+ join ", " (tags it) +:+ newline +:+
    "Climate: " +:+ join ", " (climate it) +:+ newline +:+
    "Importance:" +:+ match rstrip (to_str (importance it)) with
                      | EmptyString => EmptyString
                      | String c r => " " +:+ String c r
                      end
  /\ (to_str (importance it) <> EmptyString ->
      ends_with_space (to_str (importance it)) = false ->
      create_embedding_text it = embedding_template it).
Proof.
  assert (L : lstrip (embedding_template it) = embedding_template it)
    by reflexivity.
  assert (E : create_embedding_text it = rstrip (embedding_template it))
    by (unfold create_embedding_text, strip; rewrite L; reflexivity).
  pose proof (rstrip_importance_line_nonempty (to_str (importance it))) as N0.
  assert (F : rstrip (embedding_template it)
              = "Item: " +:+ to_str (item it) +:+ newline +:+
                "Category: " +:+ to_str (category it) +:+ newline +:+
                "Travel Type: " +:+ to_str (travel_type it) +:+ newline +:+
                "Destination: " +:+ to_str (destination_type it) +:+ newline +:+
                "Season: " +:+ join ", " (season it) +:+ newline +:+
                "Reason: " +:+ to_str (reason it) +:+ newline +:+
                "Tags: " +:+ join ", " (tags it) +:+ newline +:+
                "Climate: " +:+ join ", " (climate it) +:+ newline +:+
                rstrip ("Importance: " +:+ to_str (importance it))).
  { unfold embedding_template.
    repeat match goal with
           | |- rstrip (?a +:+ ?b) = ?a +:+ _ =>
               transitivity (a +:+ rstrip b);
               [ apply rstrip_app_keep;
                 repeat (first [exact N0 | apply rstrip_app_nonempty])
               | f_equal ]
           end. }
  split.
  - rewrite E, F, rstrip_importance_line. reflexivity.
  - intros Hne Hend. rewrite E, F.
    rewrite (rstrip_id ("Importance: " +:+ to_str (importance it))).
    + reflexivity.
    + simpl. destruct (to_str (importance it)); [contradiction | exact Hend].
Qed.

Lemma create_embedding_text_template_witness :
  create_embedding_text passport = embedding_template passport.
Proof.
  apply (proj2 (create_embedding_text_template passport)).
  - discriminate.
  - reflexivity.
Defined.

(** C5 as stated fails: with an empty importance the text ends in
    [Importance:], one blank short of the template. *)
Lemma empty_importance_text_differs :
  create_embedding_text unranked <> embedding_template unranked.
Proof. vm_compute. discriminate. Qed.

(** C7. The text is a function of the item alone, and of nine of its
    fields: two items that agree on them (the same item taken twice, for
    one) give the same text. *)
Theorem create_embedding_text_deterministic (it1 it2 : KnowledgeItem) :
  item it1 = item it2 -> category it1 = category it2 ->
  travel_type it1 = travel_type it2 ->
  destination_type it1 = destination_type it2 ->
  season it1 = season it2 -> reason it1 = reason it2 ->
  tags it1 = tags it2 -> climate it1 = climate it2 ->
  importance it1 = importance it2 ->
  create_embedding_text it1 = create_embedding_text it2.
Proof.
  intros. unfold create_embedding_text, embedding_template. congruence.
Qed.

Lemma create_embedding_text_deterministic_witness :
  create_embedding_text passport = create_embedding_text two_passports
  /\ create_embedding_text passport = create_embedding_text passport.
Proof.
  split.
  - apply (create_embedding_text_deterministic passport two_passports);
      reflexivity.
  - apply (create_embedding_text_deterministic passport passport);
      reflexivity.
Defined.

(** ** The embedder, step by step *)

Lemma payload_copy (it : KnowledgeItem) :
  {| item := item it; category := category it;
     destination_type := destination_type it; travel_type := travel_type it;
     season := season it; quantity := quantity it; reason := reason it;
     importance := importance it; tags := tags it; climate := climate it |}
  = it.
Proof. destruct it; reflexivity. Qed.

Section EmbedderSteps.

Variable cfg : config.
Variable create :
  nat -> string -> list string -> nat -> option (list (list float)).
Variable uuid4 : nat -> string.

(** The loop over a response, started at index [j]: it makes a point of
    every vector that still has an item under it, and raises on the
    first vector that has none. *)
Lemma format_points_run (data : list (list float)) (j : nat)
      (batch : list KnowledgeItem) (s : state) :
  format_points uuid4 (combine (seq j (length data)) data) batch s
  = (if (length data <=? length (drop j batch))%nat
     then Return tt else Raise IndexError,
     {| points := points s ++ make_points uuid4 (ids s) data (drop j batch);
        calls := calls s;
        ids := ids s + Nat.min (length data) (length (drop j batch));
        trace := trace s |}).
Proof.
  revert j s. induction data as [|e data IH]; intros j s.
  - destruct s; simpl. rewrite app_nil_r, Nat.add_0_r. reflexivity.
  - cbn [length seq combine format_points]. unfold mbind at 1, batch_item.
    destruct (batch !! j) as [it|] eqn:E.
    + rewrite (drop_S _ _ _ E).
      cbn [ret new_uuid append_point mbind]. unfold mbind.
      cbn [new_uuid append_point]. rewrite IH, payload_copy.
      cbn [points calls ids trace length make_points Nat.min].
      rewrite <- app_assoc. cbn [app].
      replace (ids s + S (Nat.min (length data) (length (drop (S j) batch))))
        with (S (ids s) + Nat.min (length data) (length (drop (S j) batch)))
        by lia.
      reflexivity.
    + apply lookup_ge_None in E. rewrite (drop_ge _ _ E).
      destruct s; simpl. rewrite app_nil_r, Nat.add_0_r. reflexivity.
Qed.

(** One attempt. *)
Lemma try_batch_run (batch : list KnowledgeItem) (texts : list string)
      (s : state) :
  try_batch create uuid4 batch texts s
  = match create (calls s) EMBEDDING_MODEL texts EMBEDDING_DIMENSIONS with
    | None =>
        (Raise APIError,
         {| points := points s; calls := S (calls s); ids := ids s;
            trace := trace s ++ [Create EMBEDDING_MODEL texts
                                   EMBEDDING_DIMENSIONS None] |})
    | Some data =>
        (if (length data <=? length batch)%nat
         then Return tt else Raise IndexError,
         {| points := points s ++ make_points uuid4 (ids s) data batch;
            calls := S (calls s);
            ids := ids s + Nat.min (length data) (length batch);
            trace := trace s ++ [Create EMBEDDING_MODEL texts
                                   EMBEDDING_DIMENSIONS (Some data)] |})
    end.
Proof.
  unfold try_batch, mbind, embeddings_create.
  destruct (create (calls s) EMBEDDING_MODEL texts EMBEDDING_DIMENSIONS)
    as [data|]; [|reflexivity].
  unfold enumerate. rewrite format_points_run. reflexivity.
Qed.

Lemma make_points_payload (n : nat) (data : list (list float))
      (batch : list KnowledgeItem) :
  length data = length batch ->
  Forall2 (fun it p => payload p = it) batch (make_points uuid4 n data batch).
Proof.
  revert n batch. induction data as [|e data IH]; intros n [|it batch] H;
    simpl in *; try discriminate; constructor; auto.
Qed.

Lemma make_points_vectors (n : nat) (data : list (list float))
      (batch : list KnowledgeItem) (P : list float -> Prop) :
  Forall P data ->
  Forall (fun p => P (vector p)) (make_points uuid4 n data batch).
Proof.
  intros F. revert n batch.
  induction F as [|e data He F IH]; intros n [|it batch]; simpl;
    constructor; auto.
Qed.

(** *** The retry loop, one attempt at a time *)

Lemma retry_loop_success attempt rest batch texts s data :
  create (calls s) EMBEDDING_MODEL texts EMBEDDING_DIMENSIONS = Some data ->
  length data <= length batch ->
  retry_loop cfg create uuid4 (attempt :: rest) batch texts s
  = (Return tt,
     {| points := points s ++ make_points uuid4 (ids s) data batch;
        calls := S (calls s);
        ids := ids s + length data;
        trace := trace s ++ [Create EMBEDDING_MODEL texts
                               EMBEDDING_DIMENSIONS (Some data)] |}).
Proof.
  intros E Hlen. cbn [retry_loop]. rewrite try_batch_run, E.
  rewrite (proj2 (Nat.leb_le _ _) Hlen), Nat.min_l by exact Hlen.
  reflexivity.
Qed.

Lemma retry_loop_failure attempt rest batch texts s :
  create (calls s) EMBEDDING_MODEL texts EMBEDDING_DIMENSIONS = None ->
  (Z.of_nat attempt < Z.of_nat (RETRY_ATTEMPTS cfg) - 1)%Z ->
  retry_loop cfg create uuid4 (attempt :: rest) batch texts s
  = retry_loop cfg create uuid4 rest batch texts
      {| points := points s; calls := S (calls s); ids := ids s;
         trace := trace s ++ failed_attempts texts 1 |}.
Proof.
  intros E Hlt. cbn [retry_loop]. rewrite try_batch_run, E.
  rewrite (proj2 (Z.ltb_lt _ _) Hlt).
  unfold mbind, sleep, failed_attempts. cbn [points calls ids trace].
  simpl concat. rewrite <- app_assoc. reflexivity.
Qed.

Lemma retry_loop_last_failure attempt rest batch texts s :
  create (calls s) EMBEDDING_MODEL texts EMBEDDING_DIMENSIONS = None ->
  ~ (Z.of_nat attempt < Z.of_nat (RETRY_ATTEMPTS cfg) - 1)%Z ->
  retry_loop cfg create uuid4 (attempt :: rest) batch texts s
  = (Exit 1,
     {| points := points s; calls := S (calls s); ids := ids s;
        trace := trace s ++ [Create EMBEDDING_MODEL texts
                               EMBEDDING_DIMENSIONS None] |}).
Proof.
  intros E Hge. cbn [retry_loop]. rewrite try_batch_run, E.
  rewrite (proj2 (Z.ltb_ge _ _)) by lia. reflexivity.
Qed.

Lemma failed_attempts_S texts m :
  failed_attempts texts (S m)
  = failed_attempts texts 1 ++ failed_attempts texts m.
Proof. unfold failed_attempts. simpl. reflexivity. Qed.

(** After [m] attempts that raised, none of them the last one allowed,
    the loop stands at attempt [a + m] with nothing but the log and the
    call counter changed. *)
Lemma retry_loop_after_failures m n a batch texts s :
  a + m + n = RETRY_ATTEMPTS cfg -> 0 < n ->
  (forall k, k < m ->
     create (calls s + k) EMBEDDING_MODEL texts EMBEDDING_DIMENSIONS = None) ->
  retry_loop cfg create uuid4 (seq a (m + n)) batch texts s
  = retry_loop cfg create uuid4 (seq (a + m) n) batch texts
      {| points := points s; calls := calls s + m; ids := ids s;
         trace := trace s ++ failed_attempts texts m |}.
Proof.
  revert a s. induction m as [|m IH]; intros a s HR Hn Hfail.
  - rewrite !Nat.add_0_r. unfold failed_attempts. simpl.
    rewrite app_nil_r. destruct s; reflexivity.
  - cbn [Nat.add seq]. rewrite retry_loop_failure.
    + rewrite IH.
      * cbn [points calls ids trace]. rewrite failed_attempts_S.
        rewrite <- app_assoc.
        replace (S a + m) with (a + S m) by lia.
        replace (S (calls s) + m) with (calls s + S m) by lia.
        reflexivity.
      * lia.
      * exact Hn.
      * intros k Hk. cbn [calls].
        replace (S (calls s) + k) with (calls s + S k) by lia.
        apply Hfail. lia.
    + rewrite <- (Hfail 0) by lia. f_equal. lia.
    + lia.
Qed.

(** *** What the retry loop leaves in the log *)

Lemma create_inputs_app (t1 t2 : list event) :
  create_inputs (t1 ++ t2) = create_inputs t1 ++ create_inputs t2.
Proof. apply flat_map_app. Qed.

Lemma rate_limit_sleeps_app (t1 t2 : list event) :
  rate_limit_sleeps (t1 ++ t2) = rate_limit_sleeps t1 + rate_limit_sleeps t2.
Proof. unfold rate_limit_sleeps. by rewrite List.filter_app, length_app. Qed.

(** The loop calls the service with the texts of its batch and nothing
    else, at least once and at most once per attempt, never takes the
    pause between batches, and either ends normally or ends the
    process. *)
Lemma retry_loop_log attempts batch texts s o s' :
  retry_loop cfg create uuid4 attempts batch texts s = (o, s') ->
  exists T k,
    trace s' = trace s ++ T
    /\ create_inputs T = repeat texts k
    /\ rate_limit_sleeps T = 0
    /\ calls s' = calls s + k
    /\ k <= length attempts
    /\ (attempts <> [] -> 1 <= k)
    /\ (o = Return tt \/ o = Exit 1).
Proof.
  revert s. induction attempts as [|a rest IH]; intros s H.
  - injection H as <- <-. exists [], 0. rewrite app_nil_r.
    repeat split; auto; try lia. congruence.
  - cbn [retry_loop] in H. rewrite try_batch_run in H.
    set (ev := Create EMBEDDING_MODEL texts EMBEDDING_DIMENSIONS
                 (create (calls s) EMBEDDING_MODEL texts EMBEDDING_DIMENSIONS)).
    assert (Hstop : forall s1, trace s1 = trace s ++ [ev] ->
                               calls s1 = S (calls s) ->
              exists T k, trace s1 = trace s ++ T
                /\ create_inputs T = repeat texts k
                /\ rate_limit_sleeps T = 0
                /\ calls s1 = calls s + k
                /\ k <= length (a :: rest)
                /\ (a :: rest <> [] -> 1 <= k)).
    { intros s1 Ht Hc. exists [ev], 1. rewrite Ht, Hc. simpl.
      repeat split; auto; lia. }
    assert (Hgo : forall s1, trace s1 = trace s ++ [ev] ->
                             calls s1 = S (calls s) ->
              (if (Z.of_nat a <? Z.of_nat (RETRY_ATTEMPTS cfg) - 1)%Z
               then (sleep RETRY_DELAY ;;;
                     retry_loop cfg create uuid4 rest batch texts) s1
               else sys_exit 1 s1) = (o, s') ->
              exists T k, trace s' = trace s ++ T
                /\ create_inputs T = repeat texts k
                /\ rate_limit_sleeps T = 0
                /\ calls s' = calls s + k
                /\ k <= length (a :: rest)
                /\ (a :: rest <> [] -> 1 <= k)
                /\ (o = Return tt \/ o = Exit 1)).
    { intros s1 Ht Hc Hr.
      destruct (Z.of_nat a <? Z.of_nat (RETRY_ATTEMPTS cfg) - 1)%Z.
      - unfold mbind, sleep in Hr. apply IH in Hr.
        destruct Hr as (T & k & HT & Hin & Hsl & Hca & Hk & _ & Ho).
        cbn [trace calls] in HT, Hca.
        exists (ev :: Sleep RETRY_DELAY :: T), (S k).
        refine (conj _ (conj _ (conj _ (conj _ (conj _ (conj _ Ho)))))).
        + rewrite HT, Ht, <- !app_assoc. reflexivity.
        + subst ev. cbn [create_inputs flat_map app repeat].
          f_equal. exact Hin.
        + exact Hsl.
        + rewrite Hca, Hc. lia.
        + simpl. lia.
        + intros _. lia.
      - injection Hr as <- <-.
        destruct (Hstop s1 Ht Hc) as (T & k & ?). exists T, k. intuition. }
    subst ev.
    destruct (create (calls s) EMBEDDING_MODEL texts EMBEDDING_DIMENSIONS)
      as [data|] eqn:E.
    + destruct (length data <=? length batch)%nat.
      * match type of H with
        | (_, ?st) = _ =>
            destruct (Hstop st eq_refl eq_refl) as (T & k & ?)
        end.
        injection H as <- <-. exists T, k. intuition.
      * refine (Hgo _ _ _ H); reflexivity.
    + refine (Hgo _ _ _ H); reflexivity.
Qed.

(** A property of the vectors the service returns is a property of the
    vectors of the points. *)
Lemma retry_loop_vectors (Q : list float -> Prop) attempts batch texts s o s' :
  (forall n data,
      create n EMBEDDING_MODEL texts EMBEDDING_DIMENSIONS = Some data ->
      Forall Q data) ->
  retry_loop cfg create uuid4 attempts batch texts s = (o, s') ->
  Forall (fun p => Q (vector p)) (points s) ->
  Forall (fun p => Q (vector p)) (points s').
Proof.
  intros Hdata. revert s.
  induction attempts as [|a rest IH]; intros s H F.
  - injection H as <- <-. exact F.
  - cbn [retry_loop] in H. rewrite try_batch_run in H.
    assert (Hgo : forall s1, Forall (fun p => Q (vector p)) (points s1) ->
              (if (Z.of_nat a <? Z.of_nat (RETRY_ATTEMPTS cfg) - 1)%Z
               then (sleep RETRY_DELAY ;;;
                     retry_loop cfg create uuid4 rest batch texts) s1
               else sys_exit 1 s1) = (o, s') ->
              Forall (fun p => Q (vector p)) (points s')).
    { intros s1 F1 Hr.
      destruct (Z.of_nat a <? Z.of_nat (RETRY_ATTEMPTS cfg) - 1)%Z.
      - unfold mbind, sleep in Hr. apply IH in Hr; assumption.
      - injection Hr as <- <-. exact F1. }
    destruct (create (calls s) EMBEDDING_MODEL texts EMBEDDING_DIMENSIONS)
      as [data|] eqn:E.
    + assert (F1 : Forall (fun p => Q (vector p))
                     (points s ++ make_points uuid4 (ids s) data batch)).
      { apply Forall_app. split; [exact F|].
        apply make_points_vectors, (Hdata _ _ E). }
      destruct (length data <=? length batch)%nat.
      * injection H as <- <-. exact F1.
      * refine (Hgo _ _ H). exact F1.
    + refine (Hgo _ _ H). exact F.
Qed.

(** When every answer has one vector per item of the batch, a loop that
    ends normally has added one point per item, in order, each carrying
    its item. *)
Lemma retry_loop_points n a batch texts s s' :
  (forall c data,
      create c EMBEDDING_MODEL texts EMBEDDING_DIMENSIONS = Some data ->
      length data = length batch) ->
  a + n = RETRY_ATTEMPTS cfg -> 0 < n ->
  retry_loop cfg create uuid4 (seq a n) batch texts s = (Return tt, s') ->
  exists new, points s' = points s ++ new
              /\ Forall2 (fun it p => payload p = it) batch new.
Proof.
  intros Hlen. revert a s. induction n as [|n IH]; intros a s HR Hn H; [lia|].
  cbn [seq] in H.
  destruct (create (calls s) EMBEDDING_MODEL texts EMBEDDING_DIMENSIONS)
    as [data|] eqn:E.
  - pose proof (Hlen _ _ E) as L.
    rewrite (retry_loop_success _ _ _ _ _ _ E) in H by lia.
    injection H as <-. cbn [points]. eexists. split; [reflexivity|].
    apply make_points_payload, L.
  - destruct (Z_lt_dec (Z.of_nat a) (Z.of_nat (RETRY_ATTEMPTS cfg) - 1))
      as [Hlt|Hge].
    + rewrite (retry_loop_failure _ _ _ _ _ E Hlt) in H.
      apply IH in H; [exact H | lia | lia].
    + rewrite (retry_loop_last_failure _ _ _ _ _ E Hge) in H. discriminate.
Qed.

(** *** One round of the loop over the batches *)

Lemma process_batch_inv items i s o s' :
  process_batch cfg create uuid4 items i s = (o, s') ->
  exists o1 s1,
    retry_loop cfg create uuid4 (seq 0 (RETRY_ATTEMPTS cfg))
      (slice items i (i + BATCH_SIZE cfg))
      (List.map create_embedding_text (slice items i (i + BATCH_SIZE cfg))) s
    = (o1, s1)
    /\ ((o1 = Return tt /\ o = Return tt
         /\ s' = if (i + BATCH_SIZE cfg <? length items)%nat
                 then {| points := points s1; calls := calls s1;
                         ids := ids s1;
                         trace := trace s1 ++ [Sleep (1 # 2)] |}
                 else s1)
        \/ (o1 = Exit 1 /\ o = Exit 1 /\ s' = s1)).
Proof.
  unfold process_batch, mbind. intros H.
  destruct (retry_loop cfg create uuid4 _ _ _ s) as [o1 s1] eqn:E.
  exists o1, s1. split; [reflexivity|].
  destruct (retry_loop_log _ _ _ _ _ _ E) as (? & ? & _ & _ & _ & _ & _ & _ & [->| ->]).
  - left. destruct (i + BATCH_SIZE cfg <? length items)%nat;
      unfold sleep, ret in H; injection H as <- <-; auto.
  - right. injection H as <- <-. auto.
Qed.

Lemma batch_loop_cons items i rest s :
  batch_loop cfg create uuid4 items (i :: rest) s
  = match process_batch cfg create uuid4 items i s with
    | (Return _, s1) => batch_loop cfg create uuid4 items rest s1
    | (Raise e, s1) => (Raise e, s1)
    | (Exit c, s1) => (Exit c, s1)
    end.
Proof. reflexivity. Qed.

(** A round that ends the process ends the loop, whatever is left. *)
Lemma batch_loop_abort items before i after s s1 s2 c :
  batch_loop cfg create uuid4 items before s = (Return tt, s1) ->
  process_batch cfg create uuid4 items i s1 = (Exit c, s2) ->
  batch_loop cfg create uuid4 items (before ++ i :: after) s = (Exit c, s2).
Proof.
  revert s. induction before as [|j before IH]; intros s Hb Hp.
  - injection Hb as ->. rewrite app_nil_l, batch_loop_cons, Hp. reflexivity.
  - rewrite <- app_comm_cons, batch_loop_cons.
    rewrite batch_loop_cons in Hb.
    destruct (process_batch cfg create uuid4 items j s) as [[[]|e|c'] s0];
      try discriminate.
    apply IH; assumption.
Qed.

(** *** The loop over the batches *)

Lemma batch_loop_log items starts s s' :
  batch_loop cfg create uuid4 items starts s = (Return tt, s') ->
  exists logs,
    trace s' = trace s ++ round_logs (length items) (BATCH_SIZE cfg) starts logs
    /\ Forall2 (fun i T =>
                  round_log_of cfg (slice items i (i + BATCH_SIZE cfg)) T)
               starts logs
    /\ calls s'
       = calls s
         + length (create_inputs
                     (round_logs (length items) (BATCH_SIZE cfg) starts logs)).
Proof.
  revert s. induction starts as [|i starts IH]; intros s H.
  - injection H as <-. exists []. simpl. rewrite app_nil_r, Nat.add_0_r.
    repeat split. constructor.
  - rewrite batch_loop_cons in H.
    destruct (process_batch cfg create uuid4 items i s) as [o s0] eqn:Ep.
    destruct (process_batch_inv _ _ _ _ _ Ep)
      as (o1 & s1 & Er & [(-> & -> & Hs0)|(-> & -> & _)]); [|discriminate].
    destruct (retry_loop_log _ _ _ _ _ _ Er)
      as (T & k & HT & Hin & Hsl & Hca & Hk & Hk1 & _).
    destruct (IH _ H) as (logs & HT' & F & Hca').
    rewrite length_seq in Hk.
    exists (T :: logs). cbn [round_logs].
    assert (Hs0t : trace s0 = trace s ++ T
                     ++ (if (i + BATCH_SIZE cfg <? length items)%nat
                         then [Sleep (1 # 2)] else [])
            /\ calls s0 = calls s + k).
    { subst s0. destruct (i + BATCH_SIZE cfg <? length items)%nat;
        cbn [trace calls]; rewrite HT, ?app_nil_r, <- ?app_assoc; auto. }
    destruct Hs0t as (Ht0 & Hc0).
    split; [|split].
    + rewrite HT', Ht0, <- !app_assoc. reflexivity.
    + constructor; [|exact F]. exists k. repeat split; auto.
      intros HR. apply Hk1. destruct (RETRY_ATTEMPTS cfg); [lia|discriminate].
    + rewrite Hca', Hc0, !create_inputs_app, !length_app, Hin, repeat_length.
      destruct (i + BATCH_SIZE cfg <? length items)%nat; simpl; lia.
Qed.

Lemma batch_loop_points items starts s s' :
  (forall c m texts d data,
      create c m texts d = Some data -> length data = length texts) ->
  0 < RETRY_ATTEMPTS cfg ->
  batch_loop cfg create uuid4 items starts s = (Return tt, s') ->
  exists new,
    points s' = points s ++ new
    /\ Forall2 (fun it p => payload p = it)
               (concat (List.map (fun i => slice items i (i + BATCH_SIZE cfg))
                                 starts))
               new.
Proof.
  intros Hlen HR. revert s. induction starts as [|i starts IH]; intros s H.
  - injection H as <-. exists []. rewrite app_nil_r. split; [auto|constructor].
  - rewrite batch_loop_cons in H.
    destruct (process_batch cfg create uuid4 items i s) as [o s0] eqn:Ep.
    destruct (process_batch_inv _ _ _ _ _ Ep)
      as (o1 & s1 & Er & [(-> & -> & Hs0)|(-> & -> & _)]); [|discriminate].
    apply retry_loop_points in Er; [| |lia|exact HR].
    + destruct Er as (new1 & Hp1 & F1).
      destruct (IH _ H) as (new2 & Hp2 & F2).
      exists (new1 ++ new2). split.
      * rewrite Hp2. replace (points s0) with (points s1)
          by (subst s0; destruct (_ <? _)%nat; reflexivity).
        rewrite Hp1, <- app_assoc. reflexivity.
      * cbn [List.map concat]. apply Forall2_app; assumption.
    + intros c data E. rewrite (Hlen _ _ _ _ _ E). apply length_map.
Qed.

Lemma batch_loop_vectors (Q : list float -> Prop) items starts s o s' :
  (forall c texts data,
      create c EMBEDDING_MODEL texts EMBEDDING_DIMENSIONS = Some data ->
      Forall Q data) ->
  batch_loop cfg create uuid4 items starts s = (o, s') ->
  Forall (fun p => Q (vector p)) (points s) ->
  Forall (fun p => Q (vector p)) (points s').
Proof.
  intros HQ. revert s. induction starts as [|i starts IH]; intros s H F.
  - injection H as <- <-. exact F.
  - rewrite batch_loop_cons in H.
    destruct (process_batch cfg create uuid4 items i s) as [o0 s0] eqn:Ep.
    destruct (process_batch_inv _ _ _ _ _ Ep)
      as (o1 & s1 & Er & Hcases).
    apply retry_loop_vectors with (Q := Q) in Er; [|eauto|exact F].
    destruct Hcases as [(-> & -> & Hs0)|(-> & -> & ->)].
    + apply (IH _ H). subst s0. destruct (_ <? _)%nat; exact Er.
    + injection H as <- <-. exact Er.
Qed.

(** *** Retries that end well, retries that run out *)

Lemma retry_loop_late_success batch texts data s :
  0 < RETRY_ATTEMPTS cfg ->
  length data <= length batch ->
  (forall k, k < RETRY_ATTEMPTS cfg - 1 ->
     create (calls s + k) EMBEDDING_MODEL texts EMBEDDING_DIMENSIONS = None) ->
  create (calls s + (RETRY_ATTEMPTS cfg - 1)) EMBEDDING_MODEL texts
         EMBEDDING_DIMENSIONS = Some data ->
  retry_loop cfg create uuid4 (seq 0 (RETRY_ATTEMPTS cfg)) batch texts s
  = (Return tt,
     {| points := points s ++ make_points uuid4 (ids s) data batch;
        calls := S (calls s + (RETRY_ATTEMPTS cfg - 1));
        ids := ids s + length data;
        trace := (trace s ++ failed_attempts texts (RETRY_ATTEMPTS cfg - 1))
                   ++ [Create EMBEDDING_MODEL texts EMBEDDING_DIMENSIONS
                         (Some data)] |}).
Proof.
  intros HR Hlen Hfail Hok.
  replace (seq 0 (RETRY_ATTEMPTS cfg))
    with (seq 0 ((RETRY_ATTEMPTS cfg - 1) + 1)) by (f_equal; lia).
  rewrite retry_loop_after_failures by (lia || exact Hfail).
  cbn [seq]. rewrite (retry_loop_success _ _ _ _ _ data); [reflexivity | | exact Hlen].
  exact Hok.
Qed.

Lemma retry_loop_exhausted batch texts s :
  0 < RETRY_ATTEMPTS cfg ->
  (forall k, k < RETRY_ATTEMPTS cfg ->
     create (calls s + k) EMBEDDING_MODEL texts EMBEDDING_DIMENSIONS = None) ->
  retry_loop cfg create uuid4 (seq 0 (RETRY_ATTEMPTS cfg)) batch texts s
  = (Exit 1,
     {| points := points s;
        calls := S (calls s + (RETRY_ATTEMPTS cfg - 1));
        ids := ids s;
        trace := (trace s ++ failed_attempts texts (RETRY_ATTEMPTS cfg - 1))
                   ++ [Create EMBEDDING_MODEL texts EMBEDDING_DIMENSIONS
                         None] |}).
Proof.
  intros HR Hfail.
  replace (seq 0 (RETRY_ATTEMPTS cfg))
    with (seq 0 ((RETRY_ATTEMPTS cfg - 1) + 1)) by (f_equal; lia).
  rewrite retry_loop_after_failures by (lia || (intros; apply Hfail; lia)).
  cbn [seq]. rewrite retry_loop_last_failure; [reflexivity | | cbn; lia].
  cbn [calls]. apply Hfail. lia.
Qed.

(** A service that answers every call with one vector per text is
    called once per round, and the loop ends normally. *)
Lemma batch_loop_no_failure items starts s :
  0 < RETRY_ATTEMPTS cfg ->
  (forall c m texts d, exists data,
      create c m texts d = Some data /\ length data = length texts) ->
  exists s', batch_loop cfg create uuid4 items starts s = (Return tt, s')
             /\ calls s' = calls s + length starts.
Proof.
  intros HR Hok. revert s. induction starts as [|i starts IH]; intros s.
  - exists s. split; [reflexivity | simpl; lia].
  - rewrite batch_loop_cons. unfold process_batch, mbind.
    destruct (RETRY_ATTEMPTS cfg) as [|r] eqn:ER; [lia|]. cbn [seq].
    destruct (Hok (calls s) EMBEDDING_MODEL
                (List.map create_embedding_text
                          (slice items i (i + BATCH_SIZE cfg)))
                EMBEDDING_DIMENSIONS) as (data & E & L).
    rewrite length_map in L.
    rewrite (retry_loop_success _ _ _ _ _ _ E) by lia.
    destruct (i + BATCH_SIZE cfg <? length items)%nat; unfold sleep, ret;
      match goal with
      | |- exists s', batch_loop _ _ _ _ _ ?st = _ /\ _ =>
          destruct (IH st) as (s' & Hs' & Hc)
      end;
      exists s'; (split; [exact Hs'|]); rewrite Hc; cbn [calls length]; lia.
Qed.

End EmbedderSteps.

(** ** The batches *)

Lemma ceil_div_zero (b : nat) : 0 < b -> ceil_div 0 b = 0.
Proof. intros Hb. unfold ceil_div. apply Nat.div_small. lia. Qed.

Lemma ceil_div_step (m b : nat) :
  0 < b -> 0 < m -> ceil_div m b = S (ceil_div (m - b) b).
Proof.
  intros Hb Hm. unfold ceil_div.
  destruct (le_lt_dec b m) as [Hle|Hlt].
  - replace (m + (b - 1)) with ((m - b + (b - 1)) + 1 * b) by lia.
    rewrite Nat.div_add by lia. lia.
  - replace (m - b) with 0 by lia.
    replace (m + (b - 1)) with ((m - 1) + 1 * b) by lia.
    rewrite Nat.div_add by lia.
    rewrite !Nat.div_small by lia. reflexivity.
Qed.

Section Batches.

Context {A : Type}.
Variable items : list A.
Variable b : nat.
Hypothesis b_positive : 0 < b.

Lemma range_loop_nil fuel i :
  length items <= i -> range_loop fuel i (length items) b = [].
Proof.
  intros H. destruct fuel; [reflexivity|]. simpl.
  rewrite (proj2 (Nat.ltb_ge _ _) H). reflexivity.
Qed.

Lemma range_loop_cons fuel i :
  i < length items ->
  range_loop (S fuel) i (length items) b
  = i :: range_loop fuel (i + b) (length items) b.
Proof. intros H. simpl. rewrite (proj2 (Nat.ltb_lt _ _) H). reflexivity. Qed.

(** The starts are inside the list. *)
Lemma range_loop_lt fuel i :
  Forall (fun j => j < length items) (range_loop fuel i (length items) b).
Proof.
  revert i. induction fuel as [|fuel IH]; intros i; [constructor|].
  destruct (le_lt_dec (length items) i) as [Hle|Hlt].
  - rewrite range_loop_nil by exact Hle. constructor.
  - rewrite range_loop_cons by exact Hlt. constructor; auto.
Qed.

(** With enough rounds the loop makes ceil((n - i) / b) of them. *)
Lemma range_loop_length fuel i :
  length items - i <= fuel ->
  length (range_loop fuel i (length items) b)
  = ceil_div (length items - i) b.
Proof.
  revert i. induction fuel as [|fuel IH]; intros i Hf.
  - replace (length items - i) with 0 by lia.
    rewrite ceil_div_zero by exact b_positive. reflexivity.
  - destruct (le_lt_dec (length items) i) as [Hle|Hlt].
    + rewrite range_loop_nil by exact Hle.
      replace (length items - i) with 0 by lia.
      rewrite ceil_div_zero by exact b_positive. reflexivity.
    + rewrite range_loop_cons by exact Hlt. cbn [length].
      rewrite IH by lia. rewrite (ceil_div_step (length items - i)) by lia.
      do 2 f_equal. lia.
Qed.

(** The slices at the starts, one after the other, are the list from
    the first start on. *)
Lemma range_loop_concat fuel i :
  length items - i <= fuel ->
  concat (List.map (fun j => slice items j (j + b))
                   (range_loop fuel i (length items) b))
  = drop i items.
Proof.
  revert i. induction fuel as [|fuel IH]; intros i Hf.
  - simpl. rewrite drop_ge by lia. reflexivity.
  - destruct (le_lt_dec (length items) i) as [Hle|Hlt].
    + rewrite range_loop_nil by exact Hle. simpl.
      rewrite drop_ge by lia. reflexivity.
    + rewrite range_loop_cons by exact Hlt. cbn [List.map concat].
      rewrite IH by lia. unfold slice.
      replace (i + b - i) with b by lia.
      rewrite <- (take_drop b (drop i items)) at 2.
      rewrite drop_drop. reflexivity.
Qed.

(** Every slice holds at least one element and at most [b]. *)
Lemma range_loop_sizes fuel i :
  Forall (fun batch => 1 <= length batch <= b)
         (List.map (fun j => slice items j (j + b))
                   (range_loop fuel i (length items) b)).
Proof.
  apply List.Forall_map. eapply Forall_impl; [apply range_loop_lt|].
  intros j Hj. simpl in *. unfold slice.
  rewrite length_take, length_drop. lia.
Qed.

(** In the log of the loop the pause stands between the logs of two
    neighbouring rounds, and nowhere else. *)
Lemma round_logs_joined fuel i (logs : list (list event)) :
  length items - i <= fuel ->
  length logs = length (range_loop fuel i (length items) b) ->
  round_logs (length items) b (range_loop fuel i (length items) b) logs
  = join_logs [Sleep (1 # 2)] logs.
Proof.
  revert i logs. induction fuel as [|fuel IH]; intros i logs Hf Hl.
  - destruct logs; [reflexivity | discriminate].
  - destruct (le_lt_dec (length items) i) as [Hle|Hlt].
    + rewrite range_loop_nil in * by exact Hle.
      destruct logs; [reflexivity | discriminate].
    + rewrite range_loop_cons in * by exact Hlt.
      destruct logs as [|T logs]; [discriminate|].
      cbn [length] in Hl. injection Hl as Hl. cbn [round_logs].
      rewrite IH by (exact Hl || lia).
      destruct (le_lt_dec (length items) (i + b)) as [Hle'|Hlt'].
      * rewrite (proj2 (Nat.ltb_ge _ _) Hle').
        rewrite range_loop_nil in Hl by exact Hle'.
        destruct logs; [|discriminate]. simpl. apply app_nil_r.
      * rewrite (proj2 (Nat.ltb_lt _ _) Hlt').
        destruct fuel as [|fuel']; [lia|].
        rewrite range_loop_cons in Hl by exact Hlt'.
        destruct logs as [|T' logs]; [discriminate|]. reflexivity.
Qed.

End Batches.

Lemma join_logs_sleeps (logs : list (list event)) :
  Forall (fun T => rate_limit_sleeps T = 0) logs ->
  rate_limit_sleeps (join_logs [Sleep (1 # 2)] logs) = length logs - 1.
Proof.
  induction 1 as [|T logs HT F IH]; [reflexivity|].
  destruct logs as [|T' logs]; [simpl; rewrite HT; reflexivity|].
  change (join_logs [Sleep (1 # 2)] (T :: T' :: logs))
    with (T ++ [Sleep (1 # 2)] ++ join_logs [Sleep (1 # 2)] (T' :: logs)).
  unfold rate_limit_sleeps in *.
  rewrite !List.filter_app, !length_app, HT, IH. simpl. lia.
Qed.

(** ** The run of the embedder *)

Lemma generate_embeddings_Return cfg create uuid4 items s pts s' :
  generate_embeddings cfg create uuid4 items s = (Return pts, s') ->
  0 < BATCH_SIZE cfg
  /\ batch_loop cfg create uuid4 items
       (range_loop (length items) 0 (length items) (BATCH_SIZE cfg))
       {| points := []; calls := calls s; ids := ids s; trace := trace s |}
     = (Return tt, s')
  /\ pts = points s'.
Proof.
  unfold generate_embeddings, mbind, lift, range. intros H.
  destruct (BATCH_SIZE cfg =? 0)%nat eqn:EB; [discriminate|].
  apply Nat.eqb_neq in EB.
  destruct (batch_loop cfg create uuid4 items _ _) as [[[]|e|c] s1];
    try discriminate.
  injection H as <- <-. repeat split. lia.
Qed.

Lemma batches_of_concat items b : 0 < b -> concat (batches_of items b) = items.
Proof.
  intros Hb. unfold batches_of. rewrite range_loop_concat by (exact Hb || lia).
  reflexivity.
Qed.

Lemma batches_of_length items b :
  0 < b -> length (batches_of items b) = ceil_div (length items) b.
Proof.
  intros Hb. unfold batches_of.
  rewrite length_map, range_loop_length by (exact Hb || lia).
  f_equal. lia.
Qed.

(** The calls of a log made of round logs: so many per batch. *)
Lemma round_logs_counts cfg (items : list KnowledgeItem) starts logs :
  0 < RETRY_ATTEMPTS cfg ->
  Forall2 (fun i T => round_log_of cfg (slice items i (i + BATCH_SIZE cfg)) T)
          starts logs ->
  exists counts,
    length counts = length starts
    /\ Forall (fun k => 1 <= k <= RETRY_ATTEMPTS cfg) counts
    /\ create_inputs (round_logs (length items) (BATCH_SIZE cfg) starts logs)
       = repeated_texts
           (List.map (fun i => slice items i (i + BATCH_SIZE cfg)) starts)
           counts
    /\ length (create_inputs
                 (round_logs (length items) (BATCH_SIZE cfg) starts logs))
       = total counts.
Proof.
  intros HR. induction 1 as [|i T starts logs (k & Hin & Hk & Hk1 & _) F IH].
  - exists []. repeat split. constructor.
  - destruct IH as (counts & Hl & Hc & Hr & Ht).
    exists (k :: counts). cbn [round_logs List.map repeated_texts total fold_right].
    assert (E : create_inputs
                  (T ++ (if (i + BATCH_SIZE cfg <? length items)%nat
                         then [Sleep (1 # 2)] else [])
                     ++ round_logs (length items) (BATCH_SIZE cfg) starts logs)
                = repeat (List.map create_embedding_text
                            (slice items i (i + BATCH_SIZE cfg))) k
                    ++ create_inputs
                         (round_logs (length items) (BATCH_SIZE cfg) starts logs)).
    { rewrite !create_inputs_app, Hin.
      destruct (i + BATCH_SIZE cfg <? length items)%nat; reflexivity. }
    repeat split.
    + simpl. lia.
    + constructor; [split; auto | exact Hc].
    + rewrite E, Hr. reflexivity.
    + rewrite E, length_app, repeat_length. fold (total counts). lia.
Qed.

Lemma round_logs_quiet cfg (items : list KnowledgeItem) starts logs :
  Forall2 (fun i T => round_log_of cfg (slice items i (i + BATCH_SIZE cfg)) T)
          starts logs ->
  length logs = length starts
  /\ Forall (fun T => rate_limit_sleeps T = 0) logs.
Proof.
  induction 1 as [|i T starts logs (k & _ & _ & _ & Hq) F (IHl & IHq)].
  - split; [reflexivity | constructor].
  - split; [simpl; lia | constructor; assumption].
Qed.

Lemma late_service_contract n c m texts d data :
  late_service n c m texts d = Some data ->
  length data = length texts /\ Forall (fun v => length v = d) data.
Proof.
  unfold late_service, steady_service.
  destruct (c <? n)%nat; [discriminate|]. intros H. injection H as <-.
  split; [apply length_map|].
  apply List.Forall_map, Forall_forall. intros ? _. apply repeat_length.
Qed.

Lemma steady_service_contract c m texts d :
  exists data, steady_service c m texts d = Some data
               /\ length data = length texts.
Proof. eexists. split; [reflexivity | apply length_map]. Qed.

(** C1. When the run ends normally and the service answers with one
    vector per text, the points and the items go in pairs, in the order
    of the items, and the payload of each point is its item, field for
    field. *)
Theorem points_match_items cfg create uuid4 items s pts s' :
  0 < RETRY_ATTEMPTS cfg ->
  (forall c m texts d data,
      create c m texts d = Some data -> length data = length texts) ->
  generate_embeddings cfg create uuid4 items s = (Return pts, s') ->
  length pts = length items
  /\ Forall2 (fun it p => payload p = it) items pts.
Proof.
  intros HR Hlen H.
  destruct (generate_embeddings_Return _ _ _ _ _ _ _ H) as (HB & Hloop & ->).
  destruct (batch_loop_points _ _ _ _ _ _ _ Hlen HR Hloop) as (new & Hp & F).
  cbn [points app] in Hp. rewrite Hp.
  fold (batches_of items (BATCH_SIZE cfg)) in F.
  rewrite batches_of_concat in F by exact HB.
  split; [symmetry; eapply Forall2_length; exact F | exact F].
Qed.

Lemma points_match_items_witness :
  length (points (snd sample_run)) = length five_items
  /\ Forall2 (fun it p => payload p = it) five_items (points (snd sample_run)).
Proof.
  apply (points_match_items small_config (late_service 1) sample_uuid4
           five_items initial_state (points (snd sample_run)) (snd sample_run)).
  - simpl. lia.
  - intros c m texts d data E. apply (late_service_contract _ _ _ _ _ _ E).
  - vm_compute. reflexivity.
Defined.

(** C6. When the service returns vectors of the dimensionality asked
    for, every point of a run that ends normally has a vector of length
    1536. *)
Theorem vectors_have_dimension cfg create uuid4 items s pts s' :
  (forall c m texts d data,
      create c m texts d = Some data -> Forall (fun v => length v = d) data) ->
  generate_embeddings cfg create uuid4 items s = (Return pts, s') ->
  Forall (fun p => length (vector p) = 1536) pts.
Proof.
  intros Hdim H.
  destruct (generate_embeddings_Return _ _ _ _ _ _ _ H) as (_ & Hloop & ->).
  apply (batch_loop_vectors cfg create uuid4 (fun v => length v = 1536)
           _ _ _ _ _ (fun c texts data E => Hdim c _ texts _ data E) Hloop).
  constructor.
Qed.

Lemma vectors_have_dimension_witness :
  Forall (fun p => length (vector p) = 1536) (points (snd sample_run)).
Proof.
  apply (vectors_have_dimension small_config (late_service 1) sample_uuid4
           five_items initial_state (points (snd sample_run)) (snd sample_run)).
  - intros c m texts d data E. apply (late_service_contract _ _ _ _ _ _ E).
  - vm_compute. reflexivity.
Defined.

(** C9. In the log of a run that ends normally the pause between batches
    stands between the logs of two successive batches and nowhere else,
    not after the last one: it is taken ceil(N/B) - 1 times (no time when
    there is no batch), also when B divides N. *)
Theorem rate_limit_sleep_between_batches cfg create uuid4 items s pts s' :
  generate_embeddings cfg create uuid4 items s = (Return pts, s') ->
  exists logs,
    trace s' = trace s ++ join_logs [Sleep (1 # 2)] logs
    /\ Forall2 (round_log_of cfg) (batches_of items (BATCH_SIZE cfg)) logs
    /\ length logs = ceil_div (length items) (BATCH_SIZE cfg)
    /\ Forall (fun T => rate_limit_sleeps T = 0) logs
    /\ rate_limit_sleeps (join_logs [Sleep (1 # 2)] logs)
       = ceil_div (length items) (BATCH_SIZE cfg) - 1.
Proof.
  intros H.
  destruct (generate_embeddings_Return _ _ _ _ _ _ _ H) as (HB & Hloop & _).
  destruct (batch_loop_log _ _ _ _ _ _ _ Hloop) as (logs & HT & F & _).
  destruct (round_logs_quiet _ _ _ _ F) as (Hl & Hq).
  cbn [trace] in HT.
  rewrite round_logs_joined in HT by (exact HB || lia || exact Hl).
  pose proof (batches_of_length items _ HB) as Hn.
  unfold batches_of in Hn. rewrite length_map in Hn.
  exists logs. repeat split.
  - exact HT.
  - unfold batches_of. apply Forall2_fmap_l.
    eapply Forall2_impl; [exact F|]. auto.
  - lia.
  - exact Hq.
  - rewrite join_logs_sleeps by exact Hq. lia.
Qed.

Lemma rate_limit_sleep_between_batches_witness :
  (exists logs,
      trace (snd even_run) = trace initial_state ++ join_logs [Sleep (1 # 2)] logs
      /\ Forall2 (round_log_of small_config) (batches_of four_items 2) logs
      /\ length logs = ceil_div 4 2
      /\ Forall (fun T => rate_limit_sleeps T = 0) logs
      /\ rate_limit_sleeps (join_logs [Sleep (1 # 2)] logs) = ceil_div 4 2 - 1)
  /\ ceil_div 4 2 - 1 = 1.
Proof.
  split; [|reflexivity].
  apply (rate_limit_sleep_between_batches small_config steady_service
           sample_uuid4 four_items initial_state
           (points (snd even_run)) (snd even_run)).
  vm_compute. reflexivity.
Defined.

(** C2, as the code has it. In a run that ends normally the items are cut
    into ceil(N/B) batches, each of one to B items that stand together in
    the list, and the batches in order make up the list. Every call of
    the service carries the texts of one batch; the batches are served in
    order, each with at least one call and at most RETRY_ATTEMPTS. The
    calls are ceil(N/B) in number when the service answers every call, and
    there is none, and no point, when there is no item. *)
Theorem batches_and_calls cfg create uuid4 items s pts s' :
  0 < RETRY_ATTEMPTS cfg ->
  generate_embeddings cfg create uuid4 items s = (Return pts, s') ->
  concat (batches_of items (BATCH_SIZE cfg)) = items
  /\ length (batches_of items (BATCH_SIZE cfg))
     = ceil_div (length items) (BATCH_SIZE cfg)
  /\ Forall (fun batch => 1 <= length batch <= BATCH_SIZE cfg)
            (batches_of items (BATCH_SIZE cfg))
  /\ (exists T counts,
        trace s' = trace s ++ T
        /\ length counts = length (batches_of items (BATCH_SIZE cfg))
        /\ Forall (fun k => 1 <= k <= RETRY_ATTEMPTS cfg) counts
        /\ create_inputs T
           = repeated_texts (batches_of items (BATCH_SIZE cfg)) counts
        /\ calls s' = calls s + total counts)
  /\ ((forall c m texts d, exists data,
         create c m texts d = Some data /\ length data = length texts) ->
      calls s' = calls s + ceil_div (length items) (BATCH_SIZE cfg))
  /\ (items = [] -> pts = [] /\ trace s' = trace s /\ calls s' = calls s).
Proof.
  intros HR H.
  destruct (generate_embeddings_Return _ _ _ _ _ _ _ H) as (HB & Hloop & ->).
  split; [apply batches_of_concat, HB|].
  split; [apply batches_of_length, HB|].
  split; [apply range_loop_sizes, HB|].
  split; [|split].
  - destruct (batch_loop_log _ _ _ _ _ _ _ Hloop) as (logs & HT & F & Hc).
    destruct (round_logs_counts _ _ _ _ HR F) as (counts & Hl & Hk & Hin & Ht).
    exists (round_logs (length items) (BATCH_SIZE cfg)
              (range_loop (length items) 0 (length items) (BATCH_SIZE cfg)) logs),
           counts.
    unfold batches_of. rewrite length_map.
    repeat split; auto. rewrite Hc, Ht. reflexivity.
  - intros Hok.
    destruct (batch_loop_no_failure cfg create uuid4 items
                (range_loop (length items) 0 (length items) (BATCH_SIZE cfg))
                {| points := []; calls := calls s; ids := ids s;
                   trace := trace s |} HR Hok) as (s'' & Hloop' & Hc).
    rewrite Hloop in Hloop'. injection Hloop' as <-.
    rewrite Hc. cbn [calls].
    rewrite <- (batches_of_length items _ HB). unfold batches_of.
    rewrite length_map. reflexivity.
  - intros ->. simpl in Hloop. injection Hloop as <-. auto.
Qed.

Lemma batches_and_calls_witness :
  (concat (batches_of five_items 2) = five_items
   /\ length (batches_of five_items 2) = ceil_div 5 2
   /\ Forall (fun batch => 1 <= length batch <= 2) (batches_of five_items 2)
   /\ (exists T counts,
         trace (snd sample_run) = trace initial_state ++ T
         /\ length counts = length (batches_of five_items 2)
         /\ Forall (fun k => 1 <= k <= 3) counts
         /\ create_inputs T = repeated_texts (batches_of five_items 2) counts
         /\ calls (snd sample_run) = calls initial_state + total counts)
   /\ ((forall c m texts d, exists data,
          late_service 1 c m texts d = Some data
          /\ length data = length texts) ->
       calls (snd sample_run) = calls initial_state + ceil_div 5 2)
   /\ (five_items = [] ->
       points (snd sample_run) = []
       /\ trace (snd sample_run) = trace initial_state
       /\ calls (snd sample_run) = calls initial_state))
  /\ calls (snd even_run) = calls initial_state + ceil_div 4 2.
Proof.
  split.
  - apply (batches_and_calls small_config (late_service 1) sample_uuid4
             five_items initial_state (points (snd sample_run)) (snd sample_run)).
    + simpl. lia.
    + vm_compute. reflexivity.
  - apply (batches_and_calls small_config steady_service sample_uuid4
             four_items initial_state (points (snd even_run)) (snd even_run)).
    + simpl. lia.
    + vm_compute. reflexivity.
    + apply steady_service_contract.
Defined.

(** C2 as stated fails: with the shipped constants and one item, a first
    call that raises is followed by a second one that is answered; the run
    ends normally with its one point after two calls, and ceil(1/100) is
    one. *)
Lemma retry_adds_a_call :
  (exists p, fst retried_run = Return [p])
  /\ calls (snd retried_run) = 2
  /\ length (create_inputs (trace (snd retried_run))) = 2
  /\ ceil_div (length [passport]) (BATCH_SIZE script_config) = 1.
Proof.
  split; [eexists; vm_compute; reflexivity|].
  repeat split; vm_compute; reflexivity.
Qed.

(** ** Running out of retries *)

(** A round whose attempts all raise ends the process. *)
Lemma process_batch_exhausted cfg create uuid4 items i s :
  0 < RETRY_ATTEMPTS cfg ->
  (forall k, k < RETRY_ATTEMPTS cfg ->
     create (calls s + k) EMBEDDING_MODEL
            (List.map create_embedding_text
                      (slice items i (i + BATCH_SIZE cfg)))
            EMBEDDING_DIMENSIONS = None) ->
  exists s', process_batch cfg create uuid4 items i s = (Exit 1, s')
             /\ points s' = points s.
Proof.
  intros HR Hfail. unfold process_batch, mbind.
  rewrite retry_loop_exhausted by assumption.
  eexists. split; reflexivity.
Qed.

(** When the embedder ends the process, so does the script, with the same
    status, and the writer has not run. *)
Lemma script_without_points cfg create uuid4 strftime the_disk
      c0 key f w items c s' :
  load_knowledge_base f = Return items ->
  print_statistics items = Return tt ->
  generate_embeddings cfg create uuid4 items (run w) = (Exit c, s') ->
  script cfg create uuid4 strftime the_disk (Some (String c0 key)) f w
  = (c, {| run := s'; output_file := output_file w |}).
Proof.
  intros Hload Hstat Hgen. unfold script, main.
  rewrite Hload, Hstat, Hgen. reflexivity.
Qed.

(** C3. For a batch, RETRY_ATTEMPTS - 1 calls that raise followed by one
    that is answered leave the same points (and use the same identifiers)
    as a first call answered at once with the same vectors. And when RETRY_ATTEMPTS calls
    in a row raise on a batch, the embedder ends the process with status 1,
    the script ends with status 1 and the output file is what it was
    before the run. *)
Theorem retry_policy :
  (forall cfg create1 create2 uuid4 batch texts data s1 s2,
      0 < RETRY_ATTEMPTS cfg ->
      points s1 = points s2 -> ids s1 = ids s2 ->
      length data <= length batch ->
      (forall k, k < RETRY_ATTEMPTS cfg - 1 ->
         create1 (calls s1 + k) EMBEDDING_MODEL texts EMBEDDING_DIMENSIONS
         = None) ->
      create1 (calls s1 + (RETRY_ATTEMPTS cfg - 1)) EMBEDDING_MODEL texts
              EMBEDDING_DIMENSIONS = Some data ->
      create2 (calls s2) EMBEDDING_MODEL texts EMBEDDING_DIMENSIONS
      = Some data ->
      exists s1' s2',
        retry_loop cfg create1 uuid4 (seq 0 (RETRY_ATTEMPTS cfg)) batch texts s1
        = (Return tt, s1')
        /\ retry_loop cfg create2 uuid4 (seq 0 (RETRY_ATTEMPTS cfg)) batch texts s2
           = (Return tt, s2')
        /\ points s1' = points s2'
        /\ ids s1' = ids s2')
  /\ (forall cfg create uuid4 strftime the_disk c0 key f w items
             before i after s1,
        0 < RETRY_ATTEMPTS cfg ->
        load_knowledge_base f = Return items ->
        print_statistics items = Return tt ->
        range 0 (length items) (BATCH_SIZE cfg)
        = Return (before ++ i :: after) ->
        batch_loop cfg create uuid4 items before
          {| points := []; calls := calls (run w); ids := ids (run w);
             trace := trace (run w) |}
        = (Return tt, s1) ->
        (forall k, k < RETRY_ATTEMPTS cfg ->
           create (calls s1 + k) EMBEDDING_MODEL
                  (List.map create_embedding_text
                            (slice items i (i + BATCH_SIZE cfg)))
                  EMBEDDING_DIMENSIONS = None) ->
        fst (generate_embeddings cfg create uuid4 items (run w)) = Exit 1
        /\ exists w',
            script cfg create uuid4 strftime the_disk
                   (Some (String c0 key)) f w = (1%Z, w')
            /\ output_file w' = output_file w).
Proof.
  split.
  - intros cfg create1 create2 uuid4 batch texts data s1 s2
           HR Hp Hi Hlen Hfail Hlate Hnow.
    rewrite (retry_loop_late_success cfg create1 uuid4 batch texts data s1)
      by assumption.
    destruct (RETRY_ATTEMPTS cfg) as [|r] eqn:ER; [lia|]. cbn [seq].
    rewrite (retry_loop_success cfg create2 uuid4 _ _ _ _ _ _ Hnow Hlen).
    do 2 eexists. split; [reflexivity|]. split; [reflexivity|].
    cbn [points ids]. rewrite Hp, Hi. split; reflexivity.
  - intros cfg create uuid4 strftime the_disk c0 key f w items
           before i after s1 HR Hload Hstat Hrange Hbefore Hfail.
    destruct (process_batch_exhausted cfg create uuid4 items i s1 HR Hfail)
      as (s2 & Hp & _).
    pose proof (batch_loop_abort cfg create uuid4 items before i after
                  _ _ _ _ Hbefore Hp) as Hloop.
    assert (Hgen : generate_embeddings cfg create uuid4 items (run w)
                   = (Exit 1, s2)).
    { unfold generate_embeddings, mbind, lift. rewrite Hrange, Hloop.
      reflexivity. }
    split; [rewrite Hgen; reflexivity|].
    eexists. split.
    + apply (script_without_points _ _ _ _ _ _ _ _ _ _ _ _ Hload Hstat Hgen).
    + reflexivity.
Qed.

Lemma retry_policy_witness :
  (exists s1' s2',
      retry_loop small_config (late_service 2) sample_uuid4 (seq 0 3)
                 two_items two_texts initial_state = (Return tt, s1')
      /\ retry_loop small_config steady_service sample_uuid4 (seq 0 3)
                    two_items two_texts initial_state = (Return tt, s2')
      /\ points s1' = points s2'
      /\ ids s1' = ids s2')
  /\ (fst (generate_embeddings small_config (early_service 1) sample_uuid4
             three_passports initial_state) = Exit 1
      /\ exists w',
          script small_config (early_service 1) sample_uuid4
                 "2026-01-01 00:00:00" Writable (Some "sk-test") three_rows
                 (initial_world (Some Truncated)) = (1%Z, w')
          /\ output_file w' = Some Truncated).
Proof.
  split.
  - apply (proj1 retry_policy small_config (late_service 2) steady_service
             sample_uuid4 two_items two_texts two_vectors
             initial_state initial_state).
    + simpl. lia.
    + reflexivity.
    + reflexivity.
    + simpl. lia.
    + intros k Hk. unfold late_service. simpl in *.
      destruct k as [|[|k]]; [reflexivity | reflexivity | lia].
    + reflexivity.
    + reflexivity.
  - apply (proj2 retry_policy small_config (early_service 1) sample_uuid4
             "2026-01-01 00:00:00" Writable "s"%char "k-test" three_rows
             (initial_world (Some Truncated)) three_passports
             [0] 2 [] after_first_batch).
    + simpl. lia.
    + vm_compute. reflexivity.
    + reflexivity.
    + reflexivity.
    + vm_compute. reflexivity.
    + intros k _. vm_compute. reflexivity.
Defined.

(** ** Two runs spelled out *)

(** The end-to-end example: the passport row gives one point that carries
    the passport and a vector of length 1536, and the file is written. *)
Example end_to_end :
  exists v w',
    script script_config steady_service sample_uuid4 "2026-01-01 00:00:00"
           Writable (Some "sk-test") (Opened [Row passport_row])
           (initial_world None) = (0%Z, w')
    /\ output_file w'
       = Some (Complete
                 {| doc_points := [ {| id := sample_uuid4 0; vector := v;
                                       payload := passport |} ];
                    doc_metadata :=
                      {| total_items := 1;
                         embedding_model := "text-embedding-3-small";
                         dimensions := 1536;
                         generated_at := "2026-01-01 00:00:00" |} |})
    /\ length v = 1536.
Proof.
  eexists. eexists. split; [vm_compute; reflexivity|].
  split; [reflexivity | vm_compute; reflexivity].
Qed.

(** Why the pairing of points and items needs the service to keep its
    word: an answer with one vector too many makes a point of each item
    of the batch before the loop trips over the extra vector, the retry
    makes them again, and one item ends with two points. *)
Example overlong_answer_doubles_points :
  exists p q,
    fst (generate_embeddings script_config overlong_service sample_uuid4
           [passport] initial_state) = Return [p; q]
    /\ payload p = passport /\ payload q = passport.
Proof.
  do 2 eexists. split; [vm_compute; reflexivity|]. split; reflexivity.
Qed.

(** * Further properties *)

(** ** The loader, row by row *)

Lemma load_row_not_Exit (row : gmap string cell) (c : Z) :
  load_row row <> Exit c.
Proof.
  unfold load_row, getitem, split_cell, int, get. intros H.
  repeat match type of H with
         | context [row !! ?k] => destruct (row !! k) as [[?|]|]; simpl in H
         | context [py_int ?q] => destruct (py_int q); simpl in H
         end; discriminate.
Qed.

Lemma load_rows_not_Exit (reads : list read) acc (c : Z) :
  load_rows reads acc <> Exit c.
Proof.
  revert acc. induction reads as [|[row|] reads IH]; intros acc; simpl;
    try discriminate.
  destruct (load_row row) as [it|e|c'] eqn:E; simpl; try discriminate.
  - apply IH.
  - destruct (load_row_not_Exit _ _ E).
Qed.

Lemma load_rows_all (reads : list read) acc :
  Forall (fun rd => exists row it, rd = Row row /\ load_row row = Return it)
         reads ->
  exists new, load_rows reads acc = Return (acc ++ new).
Proof.
  intros F. revert acc.
  induction F as [|rd reads (row & it & -> & E) F IH]; intros acc; simpl.
  - exists []. by rewrite app_nil_r.
  - rewrite E. simpl. destruct (IH (acc ++ [it])) as (new & ->).
    exists (it :: new). by rewrite <- app_assoc.
Qed.

(** X1. A row loads exactly when its season field is text, its tags and
    climate fields are text or the columns are absent, the six plain
    columns are present, and the quantity field is text that [int]
    accepts. *)
Theorem load_row_succeeds_iff (row : gmap string cell) :
  (exists it, load_row row = Return it)
  <-> ((exists s, row !! "season" = Some (CStr s))
       /\ row !! "tags" <> Some CNone
       /\ row !! "climate" <> Some CNone
       /\ is_Some (row !! "item")
       /\ is_Some (row !! "category")
       /\ is_Some (row !! "destination_type")
       /\ is_Some (row !! "travel_type")
       /\ (exists q z, row !! "quantity" = Some (CStr q) /\ py_int q = Some z)
       /\ is_Some (row !! "reason")
       /\ is_Some (row !! "importance")).
Proof.
  split.
  - intros (it & E). apply load_row_Return in E.
    destruct E as ((s & Hs & _) & (t & Ht & _) & (c & Hc & _)
                   & (q & Hq & Hint) & Hi & Hca & Hd & Htt & Hr & Him).
    unfold get in Ht, Hc.
    repeat split; eauto.
    + intros Hn. rewrite Hn in Ht. discriminate.
    + intros Hn. rewrite Hn in Hc. discriminate.
  - intros ((s & Hs) & Ht & Hc & [vi Hi] & [vc Hca] & [vd Hd] & [vt Htt]
            & (q & z & Hq & Hint) & [vr Hr] & [vm Him]).
    unfold load_row, getitem, get.
    rewrite Hs, Hi, Hca, Hd, Htt, Hq, Hr, Him. simpl.
    destruct (row !! "tags") as [[t|]|]; [|contradiction|];
      (destruct (row !! "climate") as [[c|]|]; [|contradiction|]);
      simpl; rewrite Hint; simpl; eexists; reflexivity.
Qed.

Lemma load_row_succeeds_iff_witness :
  (exists it, load_row passport_row = Return it)
  /\ ~ (exists it, load_row (delete "reason" passport_row) = Return it)
  /\ ~ (exists it, load_row (<["tags" := CNone]> passport_row) = Return it).
Proof.
  split; [|split].
  - apply (proj2 (load_row_succeeds_iff passport_row)).
    repeat apply conj.
    + exists "all". vm_compute. reflexivity.
    + vm_compute. discriminate.
    + vm_compute. discriminate.
    + exists (CStr "Passport"). vm_compute. reflexivity.
    + exists (CStr "documents"). vm_compute. reflexivity.
    + exists (CStr "international"). vm_compute. reflexivity.
    + exists (CStr "business"). vm_compute. reflexivity.
    + exists "1", 1%Z. split; vm_compute; reflexivity.
    + exists (CStr "required"). vm_compute. reflexivity.
    + exists (CStr "critical"). vm_compute. reflexivity.
  - intros H.
    apply (proj1 (load_row_succeeds_iff (delete "reason" passport_row))) in H.
    destruct H as (_ & _ & _ & _ & _ & _ & _ & _ & [v Hv] & _).
    vm_compute in Hv. discriminate.
  - intros H.
    apply (proj1 (load_row_succeeds_iff (<["tags" := CNone]> passport_row))) in H.
    destruct H as (_ & Ht & _). apply Ht. vm_compute. reflexivity.
Defined.

(** X2. The loader returns a list exactly when the file opens and every
    row of it loads. In every other case (no file, a reader that breaks
    off, one row that does not load) it ends the process with status 1:
    no exception leaves it and it uses no other status. *)
Theorem load_knowledge_base_outcomes (f : csv_file) :
  ((exists items, load_knowledge_base f = Return items)
   <-> exists reads,
         f = Opened reads
         /\ Forall (fun rd => exists row it,
                        rd = Row row /\ load_row row = Return it) reads)
  /\ ((exists items, load_knowledge_base f = Return items)
      \/ load_knowledge_base f = Exit 1).
Proof.
  split; [split|].
  - intros (items & H). apply load_knowledge_base_Return in H.
    destruct H as (reads & -> & F). exists reads. split; [reflexivity|].
    induction F as [|rd it reads items (row & -> & E) F IH]; constructor; eauto.
  - intros (reads & -> & F). simpl.
    destruct (load_rows_all reads [] F) as (new & ->). eauto.
  - destruct f as [| |reads]; simpl; auto.
    destruct (load_rows reads []) as [items|e|c] eqn:E; eauto.
    destruct (load_rows_not_Exit _ _ _ E).
Qed.

Lemma load_knowledge_base_outcomes_witness :
  (exists items,
      load_knowledge_base (Opened [Row passport_row; Row spaced_row])
      = Return items)
  /\ load_knowledge_base (Opened [Row passport_row; ReadError]) = Exit 1.
Proof.
  split.
  - apply (proj2 (proj1 (load_knowledge_base_outcomes
                           (Opened [Row passport_row; Row spaced_row])))).
    eexists. split; [reflexivity|].
    repeat constructor; do 2 eexists; (split; [reflexivity|]);
      vm_compute; reflexivity.
  - destruct (proj2 (load_knowledge_base_outcomes
                       (Opened [Row passport_row; ReadError])))
      as [(items & H)|H]; [|exact H].
    vm_compute in H. discriminate.
Defined.

(** X3. The loader makes one item per row, in the order of the rows, and
    the six plain fields of an item are the values of its row as they
    stand, white space included. *)
Theorem loaded_items_follow_rows (f : csv_file) (items : list KnowledgeItem) :
  load_knowledge_base f = Return items ->
  exists reads,
    f = Opened reads
    /\ length items = length reads
    /\ Forall2 (fun rd it => exists row,
                    rd = Row row
                    /\ row !! "item" = Some (item it)
                    /\ row !! "category" = Some (category it)
                    /\ row !! "destination_type" = Some (destination_type it)
                    /\ row !! "travel_type" = Some (travel_type it)
                    /\ row !! "reason" = Some (reason it)
                    /\ row !! "importance" = Some (importance it))
               reads items.
Proof.
  intros H. apply load_knowledge_base_Return in H.
  destruct H as (reads & -> & F). exists reads. split; [reflexivity|].
  split; [symmetry; eapply Forall2_length; exact F|].
  induction F as [|rd it reads items (row & -> & E) F IH]; constructor; auto.
  apply load_row_Return in E.
  destruct E as (_ & _ & _ & _ & ? & ? & ? & ? & ? & ?).
  exists row. repeat split; assumption.
Qed.

Lemma loaded_items_follow_rows_witness :
  exists reads,
    Opened [Row passport_row; Row spaced_row] = Opened reads
    /\ length [passport; spaced_item] = length reads
    /\ Forall2 (fun rd it => exists row,
                    rd = Row row
                    /\ row !! "item" = Some (item it)
                    /\ row !! "category" = Some (category it)
                    /\ row !! "destination_type" = Some (destination_type it)
                    /\ row !! "travel_type" = Some (travel_type it)
                    /\ row !! "reason" = Some (reason it)
                    /\ row !! "importance" = Some (importance it))
               reads [passport; spaced_item].
Proof.
  apply (loaded_items_follow_rows (Opened [Row passport_row; Row spaced_row])
           [passport; spaced_item]).
  vm_compute. reflexivity.
Defined.

(** X4. A row without a tags column loads with no tags, and a row without
    a climate column with no climate. *)
Theorem absent_columns_give_empty_lists (row : gmap string cell) it :
  load_row row = Return it ->
  (row !! "tags" = None -> tags it = [])
  /\ (row !! "climate" = None -> climate it = []).
Proof.
  intros E. apply load_row_Return in E.
  destruct E as (_ & (t & Ht & ->) & (c & Hc & ->) & _).
  unfold get in Ht, Hc.
  split; intros Hn; rewrite Hn in *.
  - injection Ht as <-. reflexivity.
  - injection Hc as <-. reflexivity.
Qed.

Lemma absent_columns_give_empty_lists_witness :
  exists it,
    load_row (delete "tags" (delete "climate" passport_row)) = Return it
    /\ tags it = [] /\ climate it = [].
Proof.
  destruct (load_row (delete "tags" (delete "climate" passport_row)))
    as [it|e|c] eqn:E; [|vm_compute in E; discriminate ..].
  exists it. split; [reflexivity|].
  destruct (absent_columns_give_empty_lists _ it E) as (Ht & Hc).
  split; [apply Ht | apply Hc]; vm_compute; reflexivity.
Defined.

(** ** The separators *)

Lemma occurs_lstrip c s : occurs c (lstrip s) = true -> occurs c s = true.
Proof.
  induction s as [|d s IH]; simpl; [auto|].
  destruct (isspace d); simpl; [|auto].
  intros H. rewrite (IH H). apply orb_true_r.
Qed.

Lemma occurs_rstrip c s : occurs c (rstrip s) = true -> occurs c s = true.
Proof.
  induction s as [|d s IH]; simpl; [auto|].
  destruct (rstrip s) as [|e r].
  - destruct (isspace d); simpl; [discriminate|].
    rewrite orb_false_r. intros ->. reflexivity.
  - simpl in *. intros H. apply orb_true_iff in H.
    destruct H as [->|H]; [reflexivity|]. rewrite (IH H). apply orb_true_r.
Qed.

Lemma occurs_strip c s : occurs c s = false -> occurs c (strip s) = false.
Proof.
  intros H. destruct (occurs c (strip s)) eqn:E; [|reflexivity].
  unfold strip in E. apply occurs_rstrip, occurs_lstrip in E. congruence.
Qed.

(** No piece of a split holds the separator, and there is one piece more
    than there are separators. *)
Lemma split_pieces sep s :
  Forall (fun piece => occurs sep piece = false) (split sep s)
  /\ length (split sep s) = S (count_char sep s).
Proof.
  induction s as [|d s (IHf & IHl)]; simpl.
  - split; [repeat constructor | reflexivity].
  - destruct (Ascii.eqb d sep) eqn:E.
    + split; [constructor; [reflexivity | exact IHf] | simpl; lia].
    + destruct (split sep s) as [|piece rest]; [discriminate|].
      inversion IHf; subst. simpl in *. split; [|lia].
      constructor; [simpl; rewrite E; assumption | assumption].
Qed.

Lemma Forall_strip_nonempty (P : string -> Prop) (parts : list string) :
  (forall t, P t -> P (strip t)) ->
  Forall P parts -> Forall P (strip_nonempty parts).
Proof.
  intros HP F. unfold strip_nonempty.
  induction F as [|t parts Ht F IH]; simpl; [constructor|].
  destruct (nonempty (strip t)); simpl; [constructor; auto | exact IH].
Qed.

(** X5. The season field is cut at its commas and the tags and climate
    fields at their semicolons, and at nothing else: no season entry holds
    a comma, no tag and no climate entry holds a semicolon; the season
    list has one entry more than the field has commas, and the tags list
    at most one more than the field has semicolons. *)
Theorem lists_cut_at_their_separator (row : gmap string cell) it :
  load_row row = Return it ->
  Forall (fun t => occurs ","%char t = false) (season it)
  /\ Forall (fun t => occurs ";"%char t = false) (tags it)
  /\ Forall (fun t => occurs ";"%char t = false) (climate it)
  /\ (forall s, row !! "season" = Some (CStr s) ->
                length (season it) = S (count_char ","%char s))
  /\ (forall s, row !! "tags" = Some (CStr s) ->
                length (tags it) <= S (count_char ";"%char s)).
Proof.
  intros E. apply load_row_Return in E.
  destruct E as ((s & Hs & ->) & (t & Ht & ->) & (c & Hc & ->) & _).
  split; [|split; [|split; [|split]]].
  - apply List.Forall_map. eapply Forall_impl; [apply split_pieces|].
    intros p Hp. simpl in *. apply occurs_strip, Hp.
  - apply Forall_strip_nonempty; [apply occurs_strip | apply split_pieces].
  - apply Forall_strip_nonempty; [apply occurs_strip | apply split_pieces].
  - intros s' Hs'. rewrite Hs in Hs'. injection Hs' as <-.
    rewrite length_map. apply split_pieces.
  - intros t' Ht'. unfold get in Ht. rewrite Ht' in Ht. injection Ht as <-.
    unfold strip_nonempty. rewrite length_map.
    etransitivity; [apply List.filter_length_le|].
    rewrite (proj2 (split_pieces _ _)). reflexivity.
Qed.

Lemma lists_cut_at_their_separator_witness :
  Forall (fun t => occurs ","%char t = false) (season spaced_item)
  /\ Forall (fun t => occurs ";"%char t = false) (tags spaced_item)
  /\ Forall (fun t => occurs ";"%char t = false) (climate spaced_item)
  /\ (forall s, spaced_row !! "season" = Some (CStr s) ->
                length (season spaced_item) = S (count_char ","%char s))
  /\ (forall s, spaced_row !! "tags" = Some (CStr s) ->
                length (tags spaced_item) <= S (count_char ";"%char s)).
Proof.
  apply (lists_cut_at_their_separator spaced_row spaced_item).
  vm_compute. reflexivity.
Defined.

(** ** The shape of the embedding text *)

Lemma rstrip_template_tail (it : KnowledgeItem) :
  rstrip (embedding_template it)
  = "Item: " +:+ to_str (item it) +:+ newline +:+
    rstrip ("Category: " +:+ to_str (category it) +:+ newline +:+
            "Travel Type: " +:+ to_str (travel_type it) +:+ newline +:+
            "Destination: " +:+ to_str (destination_type it) +:+ newline +:+
            "Season: " +:+ join ", " (season it) +:+ newline +:+
            "Reason: " +:+ to_str (reason it) +:+ newline +:+
            "Tags: " +:+ join ", " (tags it) +:+ newline +:+
            "Climate: " +:+ join ", " (climate it) +:+ newline +:+
            "Importance: " +:+ to_str (importance it))
    /\ rstrip ("Category: " +:+ to_str (category it) +:+ newline +:+
               "Travel Type: " +:+ to_str (travel_type it) +:+ newline +:+
               "Destination: " +:+ to_str (destination_type it) +:+ newline +:+
               "Season: " +:+ join ", " (season it) +:+ newline +:+
               "Reason: " +:+ to_str (reason it) +:+ newline +:+
               "Tags: " +:+ join ", " (tags it) +:+ newline +:+
               "Climate: " +:+ join ", " (climate it) +:+ newline +:+
               "Importance: " +:+ to_str (importance it)) <> EmptyString.
Proof.
  pose proof (rstrip_importance_line_nonempty (to_str (importance it))) as N0.
  assert (N1 : rstrip ("Category: " +:+ to_str (category it) +:+ newline +:+
               "Travel Type: " +:+ to_str (travel_type it) +:+ newline +:+
               "Destination: " +:+ to_str (destination_type it) +:+ newline +:+
               "Season: " +:+ join ", " (season it) +:+ newline +:+
               "Reason: " +:+ to_str (reason it) +:+ newline +:+
               "Tags: " +:+ join ", " (tags it) +:+ newline +:+
               "Climate: " +:+ join ", " (climate it) +:+ newline +:+
               "Importance: " +:+ to_str (importance it)) <> EmptyString)
    by (repeat (first [exact N0 | apply rstrip_app_nonempty])).
  split; [|exact N1].
  unfold embedding_template.
  rewrite (rstrip_app_keep "Item: ")
    by (repeat (first [exact N0 | apply rstrip_app_nonempty])).
  rewrite (rstrip_app_keep (to_str (item it)))
    by (repeat (first [exact N0 | apply rstrip_app_nonempty])).
  rewrite (rstrip_app_keep newline) by exact N1.
  reflexivity.
Qed.

Lemma create_embedding_text_rstrip (it : KnowledgeItem) :
  create_embedding_text it = rstrip (embedding_template it).
Proof. reflexivity. Qed.

Lemma before_newline_inj (a b r1 r2 : string) :
  occurs (ascii_of_nat 10) a = false -> occurs (ascii_of_nat 10) b = false ->
  a +:+ newline +:+ r1 = b +:+ newline +:+ r2 -> a = b.
Proof.
  revert b. induction a as [|c a IH]; intros [|d b] Ha Hb H; simpl in *.
  - reflexivity.
  - injection H as H _. subst d. rewrite Ascii.eqb_refl in Hb. discriminate.
  - injection H as H _. subst c. rewrite Ascii.eqb_refl in Ha. discriminate.
  - injection H as -> H. apply orb_false_iff in Ha, Hb.
    f_equal. apply IH; tauto.
Qed.

(** X6. The text never starts or ends with white space, is never empty,
    and always opens with the line of the item name. *)
Theorem create_embedding_text_shape (it : KnowledgeItem) :
  trimmed (create_embedding_text it) = true
  /\ exists rest,
       rest <> EmptyString
       /\ create_embedding_text it
          = "Item: " +:+ to_str (item it) +:+ newline +:+ rest.
Proof.
  split; [apply strip_trimmed|].
  destruct (rstrip_template_tail it) as (E & N).
  eexists. split; [exact N|].
  rewrite create_embedding_text_rstrip. exact E.
Qed.

(** X7. Two items whose names differ and hold no line break get different
    texts. *)
Theorem names_tell_texts_apart (it1 it2 : KnowledgeItem) :
  occurs (ascii_of_nat 10) (to_str (item it1)) = false ->
  occurs (ascii_of_nat 10) (to_str (item it2)) = false ->
  to_str (item it1) <> to_str (item it2) ->
  create_embedding_text it1 <> create_embedding_text it2.
Proof.
  intros H1 H2 Hne E. apply Hne.
  rewrite !create_embedding_text_rstrip in E.
  rewrite (proj1 (rstrip_template_tail it1)) in E.
  rewrite (proj1 (rstrip_template_tail it2)) in E.
  change ("Item: " +:+ ?x) with (String "I" (String "t" (String "e" (String "m"
            (String ":" (String " " x)))))) in E.
  injection E as E.
  exact (before_newline_inj _ _ _ _ H1 H2 E).
Qed.

Lemma names_tell_texts_apart_witness :
  create_embedding_text passport
  <> create_embedding_text
       {| item := CStr "Umbrella"; category := category passport;
          destination_type := destination_type passport;
          travel_type := travel_type passport; season := season passport;
          quantity := quantity passport; reason := reason passport;
          importance := importance passport; tags := tags passport;
          climate := climate passport |}.
Proof.
  apply names_tell_texts_apart.
  - reflexivity.
  - reflexivity.
  - discriminate.
Defined.

(** ** The log of a run, attempt by attempt *)

Section EmbedderShape.

Variable cfg : config.
Variable create :
  nat -> string -> list string -> nat -> option (list (list float)).
Variable uuid4 : nat -> string.

(** A round with attempts left is a row of failed attempts, each
    followed by the retry pause, and one last attempt; the answers in the
    log are those of the service to the calls of the round, in order. The
    round ends well when the last attempt passes, and ends the process
    when the last attempt allowed fails. *)
Lemma retry_loop_shape n a batch texts s o s' :
  a + n = RETRY_ATTEMPTS cfg -> 0 < n ->
  retry_loop cfg create uuid4 (seq a n) batch texts s = (o, s') ->
  exists failed last,
    trace s' = trace s ++ round_log texts failed last
    /\ failed ++ [last]
       = List.map (fun j => create (calls s + j) EMBEDDING_MODEL texts
                                   EMBEDDING_DIMENSIONS)
                  (seq 0 (S (length failed)))
    /\ Forall (fun r => attempt_fails batch r = true) failed
    /\ calls s' = calls s + S (length failed)
    /\ length failed < n
    /\ ((o = Return tt /\ attempt_fails batch last = false)
        \/ (o = Exit 1 /\ attempt_fails batch last = true
            /\ S (length failed) = n)).
Proof.
  revert a s. induction n as [|n IH]; intros a s HR Hn H; [lia|].
  cbn [seq retry_loop] in H. rewrite try_batch_run in H.
  set (r := create (calls s) EMBEDDING_MODEL texts EMBEDDING_DIMENSIONS) in *.
  assert (Hr0 : [r] = List.map (fun j => create (calls s + j) EMBEDDING_MODEL
                                            texts EMBEDDING_DIMENSIONS) (seq 0 1))
    by (simpl; rewrite Nat.add_0_r; reflexivity).
  assert (Hgo : forall s1,
             trace s1 = trace s ++ [Create EMBEDDING_MODEL texts
                                      EMBEDDING_DIMENSIONS r] ->
             calls s1 = S (calls s) -> attempt_fails batch r = true ->
             (if (Z.of_nat a <? Z.of_nat (RETRY_ATTEMPTS cfg) - 1)%Z
              then (sleep RETRY_DELAY ;;;
                    retry_loop cfg create uuid4 (seq (S a) n) batch texts) s1
              else sys_exit 1 s1) = (o, s') ->
             exists failed last,
               trace s' = trace s ++ round_log texts failed last
               /\ failed ++ [last]
                  = List.map (fun j => create (calls s + j) EMBEDDING_MODEL texts
                                              EMBEDDING_DIMENSIONS)
                             (seq 0 (S (length failed)))
               /\ Forall (fun r => attempt_fails batch r = true) failed
               /\ calls s' = calls s + S (length failed)
               /\ length failed < S n
               /\ ((o = Return tt /\ attempt_fails batch last = false)
                   \/ (o = Exit 1 /\ attempt_fails batch last = true
                       /\ S (length failed) = S n))).
  { intros s1 Ht Hc Hf Hrun.
    destruct (Z.ltb_spec (Z.of_nat a) (Z.of_nat (RETRY_ATTEMPTS cfg) - 1))
      as [Hlt|Hge].
    - unfold mbind, sleep in Hrun. apply IH in Hrun; [|lia|lia].
      destruct Hrun as (failed & last & HT & Hor & Hfa & Hca & Hlen & Ho).
      cbn [trace calls] in HT, Hor, Hca.
      exists (r :: failed), last.
      refine (conj _ (conj _ (conj _ (conj _ (conj _ _))))).
      + rewrite HT, Ht, <- !app_assoc. reflexivity.
      + cbn [length]. rewrite <- app_comm_cons, Hor.
        change (seq 0 (S (S (length failed))))
          with (0 :: seq 1 (S (length failed))).
        rewrite <- List.seq_shift. cbn [List.map]. rewrite List.map_map.
        rewrite Nat.add_0_r. fold r. f_equal.
        apply List.map_ext. intros j. rewrite Hc. f_equal. lia.
      + constructor; assumption.
      + rewrite Hca, Hc. simpl. lia.
      + simpl. lia.
      + destruct Ho as [Ho|(Ho & Hl & Hn')]; [left; exact Ho|].
        right. repeat split; auto; simpl; lia.
    - injection Hrun as <- <-. exists [], r.
      refine (conj _ (conj _ (conj _ (conj _ (conj _ _))))).
      + exact Ht.
      + exact Hr0.
      + constructor.
      + rewrite Hc. simpl. lia.
      + simpl. lia.
      + right. repeat split; auto; simpl; lia. }
  destruct r as [data|] eqn:Er.
  - destruct (length data <=? length batch)%nat eqn:El.
    + injection H as <- <-. exists [], (Some data).
      refine (conj _ (conj _ (conj _ (conj _ (conj _ _))))).
      * reflexivity.
      * exact Hr0.
      * constructor.
      * simpl. lia.
      * simpl. lia.
      * left. split; [reflexivity|]. simpl. rewrite El. reflexivity.
    + refine (Hgo _ _ _ _ H); try reflexivity. simpl. rewrite El. reflexivity.
  - refine (Hgo _ _ _ _ H); reflexivity.
Qed.

Lemma create_inputs_round_log texts failed last :
  create_inputs (round_log texts failed last)
  = repeat texts (S (length failed)).
Proof.
  unfold round_log. rewrite create_inputs_app.
  induction failed as [|r failed IH]; [reflexivity|].
  cbn [flat_map app create_inputs length] in *.
  change (repeat texts (S (S (length failed))))
    with (texts :: repeat texts (S (length failed))).
  rewrite <- IH. reflexivity.
Qed.

Lemma create_inputs_pause (c : bool) :
  create_inputs (if c then [Sleep (1 # 2)] else []) = [].
Proof. destruct c; reflexivity. Qed.

(** The log of the loop over the batches is the log of its rounds, with
    the pause between batches where its condition holds; the loop ends
    the process in the first round that runs out of attempts. *)
Lemma batch_loop_rounds items starts s o s' :
  0 < RETRY_ATTEMPTS cfg ->
  batch_loop cfg create uuid4 items starts s = (o, s') ->
  exists T,
    trace s' = trace s ++ T
    /\ calls s' = calls s + length (create_inputs T)
    /\ ((o = Return tt
         /\ exists logs,
             T = round_logs (length items) (BATCH_SIZE cfg) starts logs
             /\ Forall2 (fun i L =>
                           round_of cfg (slice items i (i + BATCH_SIZE cfg))
                                    true L) starts logs)
        \/ (o = Exit 1
            /\ exists before i after logs L,
                starts = before ++ i :: after
                /\ T = round_logs (length items) (BATCH_SIZE cfg) before logs
                       ++ L
                /\ Forall2 (fun i L =>
                              round_of cfg (slice items i (i + BATCH_SIZE cfg))
                                       true L) before logs
                /\ round_of cfg (slice items i (i + BATCH_SIZE cfg)) false L)).
Proof.
  intros HR. revert s. induction starts as [|i starts IH]; intros s H.
  - injection H as <- <-. exists []. rewrite app_nil_r. simpl.
    split; [reflexivity|]. split; [lia|].
    left. split; [reflexivity|]. exists []. split; [reflexivity|constructor].
  - rewrite batch_loop_cons in H.
    destruct (process_batch cfg create uuid4 items i s) as [o0 s0] eqn:Ep.
    destruct (process_batch_inv _ _ _ _ _ _ _ _ Ep) as (o1 & s1 & Er & Hcases).
    apply retry_loop_shape in Er; [|lia|exact HR].
    destruct Er as (failed & last & HT & _ & Hfa & Hca & Hlen & Ho).
    set (batch := slice items i (i + BATCH_SIZE cfg)) in *.
    set (L := round_log (List.map create_embedding_text batch) failed last) in *.
    assert (HL : length (create_inputs L) = S (length failed))
      by (subst L; rewrite create_inputs_round_log; apply repeat_length).
    destruct Hcases as [(-> & -> & Hs0)|(-> & -> & ->)].
    + destruct Ho as [(_ & Hlast)|(Hx & _)]; [|discriminate].
      assert (Hround : round_of cfg batch true L).
      { exists failed, last. repeat split; auto. discriminate. }
      assert (Ht0 : trace s0 = trace s ++ L
                      ++ (if (i + BATCH_SIZE cfg <? length items)%nat
                          then [Sleep (1 # 2)] else [])
              /\ calls s0 = calls s + S (length failed)).
      { subst s0. destruct (i + BATCH_SIZE cfg <? length items)%nat;
          cbn [trace calls]; rewrite HT, ?app_nil_r, <- ?app_assoc; auto. }
      destruct Ht0 as (Ht0 & Hc0).
      destruct (IH _ H) as (T' & HT' & Hca' & Hor).
      exists (L ++ (if (i + BATCH_SIZE cfg <? length items)%nat
                    then [Sleep (1 # 2)] else []) ++ T').
      split; [rewrite HT', Ht0, <- !app_assoc; reflexivity|].
      split.
      { rewrite Hca', Hc0, !create_inputs_app, create_inputs_pause,
          !length_app, HL. simpl. lia. }
      destruct Hor as [(-> & logs & -> & F)
                      |(-> & before & j & after & logs & L' & -> & -> & F & Hj)].
      * left. split; [reflexivity|]. exists (L :: logs).
        split; [reflexivity | constructor; assumption].
      * right. split; [reflexivity|].
        exists (i :: before), j, after, (L :: logs), L'.
        split; [reflexivity|]. split.
        -- cbn [round_logs]. rewrite <- !app_assoc. reflexivity.
        -- split; [constructor; assumption | exact Hj].
    + destruct Ho as [(Hx & _)|(_ & Hlast & Hall)]; [discriminate|].
      injection H as <- <-. exists L.
      split; [exact HT|]. split; [rewrite Hca, HL; reflexivity|].
      right. split; [reflexivity|].
      exists [], i, starts, [], L. repeat split; [constructor|].
      exists failed, last.
      repeat split; auto.
Qed.

End EmbedderShape.

(** ** What every run does *)

Lemma generate_embeddings_unfold cfg create uuid4 items s :
  0 < BATCH_SIZE cfg ->
  generate_embeddings cfg create uuid4 items s
  = match batch_loop cfg create uuid4 items
            (range_loop (length items) 0 (length items) (BATCH_SIZE cfg))
            {| points := []; calls := calls s; ids := ids s;
               trace := trace s |} with
    | (Return _, s') => (Return (points s'), s')
    | (Raise e, s') => (Raise e, s')
    | (Exit c, s') => (Exit c, s')
    end.
Proof.
  intros HB. unfold generate_embeddings, mbind, lift, range.
  destruct (BATCH_SIZE cfg =? 0)%nat eqn:E; [apply Nat.eqb_eq in E; lia|].
  reflexivity.
Qed.

Lemma generate_embeddings_zero_batch cfg create uuid4 items s :
  BATCH_SIZE cfg = 0 ->
  generate_embeddings cfg create uuid4 items s
  = (Raise ValueError,
     {| points := []; calls := calls s; ids := ids s; trace := trace s |}).
Proof.
  intros HB. unfold generate_embeddings, mbind, lift, range.
  rewrite HB. reflexivity.
Qed.

Lemma batch_loop_outcomes cfg create uuid4 items starts s o s' :
  batch_loop cfg create uuid4 items starts s = (o, s') ->
  (o = Return tt \/ o = Exit 1)
  /\ calls s <= calls s' <= calls s + RETRY_ATTEMPTS cfg * length starts.
Proof.
  revert s. induction starts as [|i starts IH]; intros s H.
  - injection H as <- <-. split; [auto | simpl; lia].
  - rewrite batch_loop_cons in H.
    destruct (process_batch cfg create uuid4 items i s) as [o0 s0] eqn:Ep.
    destruct (process_batch_inv _ _ _ _ _ _ _ _ Ep) as (o1 & s1 & Er & Hcases).
    destruct (retry_loop_log _ _ _ _ _ _ _ _ _ Er)
      as (T & k & _ & _ & _ & Hca & Hk & _ & _).
    rewrite length_seq in Hk.
    destruct Hcases as [(-> & -> & Hs0)|(-> & -> & ->)].
    + destruct (IH _ H) as (Ho & Hc). split; [exact Ho|].
      replace (calls s0) with (calls s1) in Hc
        by (subst s0; destruct (_ <? _)%nat; reflexivity).
      cbn [length]. nia.
    + injection H as <- <-. split; [auto|]. cbn [length]. nia.
Qed.

Lemma slice_size {A} (items : list A) (i b : nat) :
  0 < b -> i < length items -> 1 <= length (slice items i (i + b)) <= b.
Proof.
  intros Hb Hi. unfold slice. rewrite length_take, length_drop. lia.
Qed.

Lemma round_log_well_formed b texts failed last :
  1 <= length texts <= b ->
  Forall (well_formed_event b) (round_log texts failed last).
Proof.
  intros Hl. unfold round_log. apply Forall_app. split.
  - induction failed as [|r failed IH]; [constructor|].
    cbn [flat_map app]. constructor; [simpl; auto|].
    constructor; [left; reflexivity | exact IH].
  - constructor; [simpl; auto | constructor].
Qed.

Lemma round_of_well_formed cfg batch ok L :
  1 <= length batch <= BATCH_SIZE cfg ->
  round_of cfg batch ok L -> Forall (well_formed_event (BATCH_SIZE cfg)) L.
Proof.
  intros Hl (failed & last & -> & _). apply round_log_well_formed.
  rewrite length_map. exact Hl.
Qed.

Lemma round_logs_well_formed cfg (items : list KnowledgeItem) starts logs :
  0 < BATCH_SIZE cfg ->
  Forall (fun i => i < length items) starts ->
  Forall2 (fun i L => round_of cfg (slice items i (i + BATCH_SIZE cfg)) true L)
          starts logs ->
  Forall (well_formed_event (BATCH_SIZE cfg))
         (round_logs (length items) (BATCH_SIZE cfg) starts logs).
Proof.
  intros HB Hin F. induction F as [|i L starts logs Hr F IH];
    [constructor|].
  inversion Hin as [|? ? Hi Hin']; subst. cbn [round_logs].
  apply Forall_app. split; [|apply Forall_app; split].
  - eapply round_of_well_formed; [|exact Hr]. apply slice_size; assumption.
  - destruct (_ <? _)%nat; [|constructor].
    constructor; [right; reflexivity | constructor].
  - apply IH, Hin'.
Qed.

(** X8. Whatever the service does and however the run ends, every request
    names the model and the dimensionality of the script and carries the
    texts of one to BATCH_SIZE items, and every pause is the retry pause of
    two seconds or the pause of half a second between batches. *)
Theorem requests_are_well_formed cfg create uuid4 items s o s' :
  0 < RETRY_ATTEMPTS cfg ->
  generate_embeddings cfg create uuid4 items s = (o, s') ->
  exists T, trace s' = trace s ++ T
            /\ Forall (well_formed_event (BATCH_SIZE cfg)) T.
Proof.
  intros HR H. destruct (Nat.eq_dec (BATCH_SIZE cfg) 0) as [HB|HB].
  - rewrite generate_embeddings_zero_batch in H by exact HB.
    injection H as <- <-. exists []. split; [by rewrite app_nil_r|constructor].
  - assert (HB' : 0 < BATCH_SIZE cfg) by lia.
    rewrite generate_embeddings_unfold in H by exact HB'.
    destruct (batch_loop cfg create uuid4 items _ _) as [o1 s1] eqn:E.
    assert (Hs : s1 = s') by (destruct o1; injection H; auto).
    subst s1. clear H.
    destruct (batch_loop_rounds _ _ _ _ _ _ _ _ HR E) as (T & HT & _ & Hor).
    exists T. split; [exact HT|].
    pose proof (range_loop_lt items (BATCH_SIZE cfg) (length items) 0) as Hlt.
    destruct Hor as [(_ & logs & -> & F)
                    |(_ & before & i & after & logs & L & Hst & -> & F & Hl)].
    + apply round_logs_well_formed; assumption.
    + rewrite Hst in Hlt. apply Forall_app in Hlt. destruct Hlt as (Hb & Hi).
      inversion Hi as [|? ? Hi' _]; subst.
      apply Forall_app. split.
      * apply round_logs_well_formed; assumption.
      * eapply round_of_well_formed; [|exact Hl]. apply slice_size; assumption.
Qed.

Lemma requests_are_well_formed_witness :
  (exists T, trace (snd sample_run) = trace initial_state ++ T
             /\ Forall (well_formed_event 2) T)
  /\ (exists T, trace (snd aborted_run) = trace initial_state ++ T
                /\ Forall (well_formed_event 2) T).
Proof.
  split.
  - apply (requests_are_well_formed small_config (late_service 1) sample_uuid4
             five_items initial_state (fst sample_run) (snd sample_run)).
    + simpl. lia.
    + vm_compute. reflexivity.
  - apply (requests_are_well_formed small_config (early_service 1) sample_uuid4
             three_passports initial_state (fst aborted_run) (snd aborted_run)).
    + simpl. lia.
    + vm_compute. reflexivity.
Defined.

(** X9. However the run ends, it makes at most RETRY_ATTEMPTS calls per
    batch: no more than RETRY_ATTEMPTS * ceil(N/B) calls in all. *)
Theorem calls_are_bounded cfg create uuid4 items s o s' :
  generate_embeddings cfg create uuid4 items s = (o, s') ->
  calls s <= calls s'
  /\ calls s'
     <= calls s
        + RETRY_ATTEMPTS cfg * ceil_div (length items) (BATCH_SIZE cfg).
Proof.
  intros H. destruct (Nat.eq_dec (BATCH_SIZE cfg) 0) as [HB|HB].
  - rewrite generate_embeddings_zero_batch in H by exact HB.
    injection H as <- <-. simpl. lia.
  - assert (HB' : 0 < BATCH_SIZE cfg) by lia.
    rewrite generate_embeddings_unfold in H by exact HB'.
    destruct (batch_loop cfg create uuid4 items _ _) as [o1 s1] eqn:E.
    assert (Hs : s1 = s') by (destruct o1; injection H; auto).
    subst s1. clear H.
    destruct (batch_loop_outcomes _ _ _ _ _ _ _ _ E) as (_ & Hc).
    rewrite range_loop_length in Hc by (exact HB' || lia).
    rewrite Nat.sub_0_r in Hc. exact Hc.
Qed.

Lemma calls_are_bounded_witness :
  calls initial_state <= calls (snd aborted_run)
  /\ calls (snd aborted_run) <= calls initial_state + 3 * ceil_div 3 2.
Proof.
  apply (calls_are_bounded small_config (early_service 1) sample_uuid4
           three_passports initial_state (fst aborted_run) (snd aborted_run)).
  vm_compute. reflexivity.
Defined.

Lemma retry_sleeps_app (t1 t2 : list event) :
  retry_sleeps (t1 ++ t2) = retry_sleeps t1 + retry_sleeps t2.
Proof. unfold retry_sleeps. by rewrite List.filter_app, length_app. Qed.

Lemma retry_sleeps_round_log texts failed last :
  retry_sleeps (round_log texts failed last) = length failed.
Proof.
  unfold round_log. rewrite retry_sleeps_app.
  replace (retry_sleeps [Create EMBEDDING_MODEL texts EMBEDDING_DIMENSIONS last])
    with 0 by reflexivity.
  rewrite Nat.add_0_r.
  induction failed as [|r failed IH]; [reflexivity|].
  cbn [flat_map app length]. rewrite <- IH. reflexivity.
Qed.

Lemma round_logs_retries cfg (items : list KnowledgeItem) starts logs :
  Forall2 (fun i L => round_of cfg (slice items i (i + BATCH_SIZE cfg)) true L)
          starts logs ->
  retry_sleeps (round_logs (length items) (BATCH_SIZE cfg) starts logs)
  + length starts
  = length (create_inputs
              (round_logs (length items) (BATCH_SIZE cfg) starts logs)).
Proof.
  induction 1 as [|i L starts logs (failed & last & -> & _) F IH];
    [reflexivity|].
  cbn [round_logs length].
  rewrite !retry_sleeps_app, !create_inputs_app, !length_app.
  rewrite retry_sleeps_round_log, create_inputs_round_log, repeat_length.
  rewrite create_inputs_pause.
  replace (retry_sleeps (if (i + BATCH_SIZE cfg <? length items)%nat
                         then [Sleep (1 # 2)] else [])) with 0
    by (destruct (_ <? _)%nat; reflexivity).
  simpl. lia.
Qed.

(** X10. In a run that ends normally every call but the last one of each
    batch is followed by the retry pause: the retry pauses and the
    ceil(N/B) batches add up to the calls. *)
Theorem retries_are_paced cfg create uuid4 items s pts s' :
  0 < RETRY_ATTEMPTS cfg ->
  generate_embeddings cfg create uuid4 items s = (Return pts, s') ->
  exists T,
    trace s' = trace s ++ T
    /\ calls s' = calls s + length (create_inputs T)
    /\ retry_sleeps T + ceil_div (length items) (BATCH_SIZE cfg)
       = length (create_inputs T).
Proof.
  intros HR H.
  destruct (generate_embeddings_Return _ _ _ _ _ _ _ H) as (HB & Hloop & _).
  destruct (batch_loop_rounds _ _ _ _ _ _ _ _ HR Hloop)
    as (T & HT & Hc & [(_ & logs & -> & F)|(Hx & _)]); [|discriminate].
  eexists. split; [exact HT|]. split; [exact Hc|].
  rewrite <- (round_logs_retries _ _ _ _ F).
  rewrite range_loop_length by (exact HB || lia).
  rewrite Nat.sub_0_r. reflexivity.
Qed.

Lemma retries_are_paced_witness :
  exists T,
    trace (snd sample_run) = trace initial_state ++ T
    /\ calls (snd sample_run) = calls initial_state + length (create_inputs T)
    /\ retry_sleeps T + ceil_div 5 2 = length (create_inputs T).
Proof.
  apply (retries_are_paced small_config (late_service 1) sample_uuid4
           five_items initial_state (points (snd sample_run)) (snd sample_run)).
  - simpl. lia.
  - vm_compute. reflexivity.
Defined.

(** X11. The embedder gives up only on a batch whose RETRY_ATTEMPTS calls
    in a row have all failed, and then at once with status 1: the log of
    the run ends with the last of these calls. *)
Theorem abort_follows_exhausted_retries cfg create uuid4 items s c s' :
  0 < RETRY_ATTEMPTS cfg ->
  generate_embeddings cfg create uuid4 items s = (Exit c, s') ->
  c = 1%Z
  /\ exists T batch failed last,
       trace s'
       = trace s ++ T
           ++ round_log (List.map create_embedding_text batch) failed last
       /\ In batch (batches_of items (BATCH_SIZE cfg))
       /\ S (length failed) = RETRY_ATTEMPTS cfg
       /\ Forall (fun r => attempt_fails batch r = true) failed
       /\ attempt_fails batch last = true.
Proof.
  intros HR H. destruct (Nat.eq_dec (BATCH_SIZE cfg) 0) as [HB|HB].
  - rewrite generate_embeddings_zero_batch in H by exact HB. discriminate.
  - assert (HB' : 0 < BATCH_SIZE cfg) by lia.
    rewrite generate_embeddings_unfold in H by exact HB'.
    destruct (batch_loop cfg create uuid4 items _ _) as [o1 s1] eqn:E.
    destruct (batch_loop_rounds _ _ _ _ _ _ _ _ HR E)
      as (T & HT & _ & [(-> & _)
                       |(-> & before & i & after & logs & L & Hst & -> & _ & Hl)]);
      [discriminate|].
    injection H as <- <-. split; [reflexivity|].
    destruct Hl as (failed & last & -> & Hf & _ & Hlast & Hall).
    exists (round_logs (length items) (BATCH_SIZE cfg) before logs),
           (slice items i (i + BATCH_SIZE cfg)), failed, last.
    cbn [trace] in HT.
    repeat split; auto.
    unfold batches_of. rewrite Hst.
    apply (in_map (fun j => slice items j (j + BATCH_SIZE cfg))), in_elt.
Qed.

Lemma abort_follows_exhausted_retries_witness :
  1%Z = 1%Z
  /\ exists T batch failed last,
       trace (snd aborted_run)
       = trace initial_state ++ T
           ++ round_log (List.map create_embedding_text batch) failed last
       /\ In batch (batches_of three_passports 2)
       /\ S (length failed) = 3
       /\ Forall (fun r => attempt_fails batch r = true) failed
       /\ attempt_fails batch last = true.
Proof.
  apply (abort_follows_exhausted_retries small_config (early_service 1)
           sample_uuid4 three_passports initial_state 1 (snd aborted_run)).
  - simpl. lia.
  - vm_compute. reflexivity.
Defined.

(** ** Identifiers and vectors, when the service keeps its word *)

Lemma answered_app (t1 t2 : list event) :
  answered (t1 ++ t2) = answered t1 ++ answered t2.
Proof. apply flat_map_app. Qed.

Lemma answered_failed_attempts texts m : answered (failed_attempts texts m) = [].
Proof.
  induction m as [|m IH]; [reflexivity|].
  rewrite failed_attempts_S, answered_app, IH. reflexivity.
Qed.

Lemma make_points_app uuid4 n d1 d2 (b1 b2 : list KnowledgeItem) :
  length d1 = length b1 ->
  make_points uuid4 n (d1 ++ d2) (b1 ++ b2)
  = make_points uuid4 n d1 b1 ++ make_points uuid4 (n + length b1) d2 b2.
Proof.
  revert n b1. induction d1 as [|e d1 IH]; intros n [|it b1] H;
    simpl in *; try discriminate.
  - rewrite Nat.add_0_r. reflexivity.
  - rewrite IH by lia. f_equal. f_equal. f_equal. lia.
Qed.

Lemma make_points_fields uuid4 n data (batch : list KnowledgeItem) :
  length data = length batch ->
  List.map id (make_points uuid4 n data batch)
  = List.map uuid4 (seq n (length batch))
  /\ List.map vector (make_points uuid4 n data batch) = data.
Proof.
  revert n batch. induction data as [|e data IH]; intros n [|it batch] H;
    simpl in *; try discriminate; [auto|].
  destruct (IH (S n) batch) as (Hi & Hv); [lia|].
  rewrite Hi, Hv. auto.
Qed.

Section KeptContract.

Variable cfg : config.
Variable create :
  nat -> string -> list string -> nat -> option (list (list float)).
Variable uuid4 : nat -> string.

Hypothesis one_vector_per_text :
  forall c m texts d data,
    create c m texts d = Some data -> length data = length texts.

Hypothesis attempts_allowed : 0 < RETRY_ATTEMPTS cfg.

(** A round that ends well has one answered call, the last one, and makes
    its points of that answer. *)
Lemma retry_loop_answer n a batch s s' :
  a + n = RETRY_ATTEMPTS cfg -> 0 < n ->
  retry_loop cfg create uuid4 (seq a n) batch
             (List.map create_embedding_text batch) s = (Return tt, s') ->
  exists T data,
    trace s' = trace s ++ T
    /\ answered T = [(List.map create_embedding_text batch, data)]
    /\ rate_limit_sleeps T = 0
    /\ length data = length batch
    /\ points s' = points s ++ make_points uuid4 (ids s) data batch
    /\ ids s' = ids s + length batch.
Proof.
  revert a s. induction n as [|n IH]; intros a s HR Hn H; [lia|].
  cbn [seq] in H.
  destruct (create (calls s) EMBEDDING_MODEL
              (List.map create_embedding_text batch) EMBEDDING_DIMENSIONS)
    as [data|] eqn:E.
  - pose proof (one_vector_per_text _ _ _ _ _ E) as L.
    rewrite length_map in L.
    rewrite (retry_loop_success _ _ _ _ _ _ _ _ _ E) in H by lia.
    injection H as <-. cbn [points ids trace].
    eexists. exists data. split; [reflexivity|].
    repeat split; auto; rewrite L; reflexivity.
  - destruct (Z_lt_dec (Z.of_nat a) (Z.of_nat (RETRY_ATTEMPTS cfg) - 1))
      as [Hlt|Hge].
    + rewrite (retry_loop_failure _ _ _ _ _ _ _ _ E Hlt) in H.
      apply IH in H; [|lia|lia].
      destruct H as (T & data & HT & Ha & Hq & L & Hp & Hi).
      cbn [points ids trace] in HT, Hp, Hi.
      exists (failed_attempts (List.map create_embedding_text batch) 1 ++ T),
             data.
      split; [rewrite HT, <- app_assoc; reflexivity|].
      split; [rewrite answered_app, answered_failed_attempts; exact Ha|].
      split; [rewrite rate_limit_sleeps_app, Hq; reflexivity|].
      auto.
    + rewrite (retry_loop_last_failure _ _ _ _ _ _ _ _ E Hge) in H.
      discriminate.
Qed.

Lemma batch_loop_answers items starts s s' :
  batch_loop cfg create uuid4 items starts s = (Return tt, s') ->
  exists T,
    trace s' = trace s ++ T
    /\ List.map fst (answered T)
       = List.map (fun i => List.map create_embedding_text
                              (slice items i (i + BATCH_SIZE cfg))) starts
    /\ length (concat (List.map snd (answered T)))
       = length (concat (List.map (fun i => slice items i (i + BATCH_SIZE cfg))
                                  starts))
    /\ points s'
       = points s
         ++ make_points uuid4 (ids s) (concat (List.map snd (answered T)))
              (concat (List.map (fun i => slice items i (i + BATCH_SIZE cfg))
                                starts))
    /\ ids s'
       = ids s
         + length (concat (List.map (fun i => slice items i (i + BATCH_SIZE cfg))
                                    starts)).
Proof.
  revert s. induction starts as [|i starts IH]; intros s H.
  - injection H as <-. exists []. simpl. rewrite !app_nil_r, Nat.add_0_r.
    repeat split.
  - rewrite batch_loop_cons in H.
    destruct (process_batch cfg create uuid4 items i s) as [o0 s0] eqn:Ep.
    destruct (process_batch_inv _ _ _ _ _ _ _ _ Ep)
      as (o1 & s1 & Er & [(-> & -> & Hs0)|(-> & -> & _)]); [|discriminate].
    apply retry_loop_answer in Er; [|lia|exact attempts_allowed].
    destruct Er as (T1 & data & HT1 & Ha1 & _ & L & Hp1 & Hi1).
    destruct (IH _ H) as (T2 & HT2 & Ha2 & Hl2 & Hp2 & Hi2).
    set (pause := if (i + BATCH_SIZE cfg <? length items)%nat
                  then [Sleep (1 # 2)] else []).
    assert (Hs0' : trace s0 = trace s1 ++ pause /\ points s0 = points s1
                   /\ ids s0 = ids s1).
    { subst s0 pause. destruct (_ <? _)%nat; cbn [trace points ids];
        rewrite ?app_nil_r; auto. }
    destruct Hs0' as (Ht0 & Hp0 & Hi0).
    assert (Hpause : answered pause = [])
      by (subst pause; destruct (_ <? _)%nat; reflexivity).
    exists (T1 ++ pause ++ T2).
    rewrite !answered_app, Hpause, Ha1. cbn [app List.map fst snd concat].
    split; [rewrite HT2, Ht0, HT1, <- !app_assoc; reflexivity|].
    split; [rewrite Ha2; reflexivity|].
    split; [rewrite !length_app, Hl2, L; reflexivity|].
    split.
    + rewrite Hp2, Hp0, Hp1, Hi0, Hi1, <- app_assoc.
      rewrite make_points_app by exact L. reflexivity.
    + rewrite Hi2, Hi0, Hi1, length_app. lia.
Qed.

End KeptContract.

(** X12. When the service answers with one vector per text, the points of
    a run that ends normally carry the successive identifiers that uuid4
    hands out, one each and in order; they are all different when uuid4
    does not repeat itself. *)
Theorem point_ids_are_fresh cfg create uuid4 items s pts s' :
  0 < RETRY_ATTEMPTS cfg ->
  (forall c m texts d data,
      create c m texts d = Some data -> length data = length texts) ->
  generate_embeddings cfg create uuid4 items s = (Return pts, s') ->
  List.map id pts = List.map uuid4 (seq (ids s) (length items))
  /\ ids s' = ids s + length items
  /\ ((forall i j, uuid4 i = uuid4 j -> i = j) -> List.NoDup (List.map id pts)).
Proof.
  intros HR Hlen H.
  destruct (generate_embeddings_Return _ _ _ _ _ _ _ H) as (HB & Hloop & ->).
  destruct (batch_loop_answers cfg create uuid4 Hlen HR _ _ _ _ Hloop)
    as (T & _ & _ & Hl & Hp & Hi).
  fold (batches_of items (BATCH_SIZE cfg)) in Hl, Hp, Hi.
  rewrite batches_of_concat in Hl, Hp, Hi by exact HB.
  cbn [points ids app] in Hp, Hi.
  destruct (make_points_fields uuid4 (ids s) _ _ Hl) as (Hid & _).
  rewrite Hp, Hid. repeat split; [exact Hi|].
  intros Hinj. apply List.NoDup_map_NoDup_ForallPairs.
  - intros i j _ _. apply Hinj.
  - apply List.seq_NoDup.
Qed.

Lemma point_ids_are_fresh_witness :
  List.map id (points (snd sample_run)) = List.map sample_uuid4 (seq 0 5)
  /\ ids (snd sample_run) = 0 + 5
  /\ ((forall i j, sample_uuid4 i = sample_uuid4 j -> i = j) ->
      List.NoDup (List.map id (points (snd sample_run)))).
Proof.
  apply (point_ids_are_fresh small_config (late_service 1) sample_uuid4
           five_items initial_state (points (snd sample_run)) (snd sample_run)).
  - simpl. lia.
  - intros c m texts d data E. apply (late_service_contract _ _ _ _ _ _ E).
  - vm_compute. reflexivity.
Defined.

(** X13. When the service answers with one vector per text, a run that
    ends normally has exactly one answered call per batch, in the order of
    the batches and with the texts of the batch, and the vectors of the
    points are the vectors of these answers, in order: each item gets the
    vector returned for its own text. *)
Theorem vectors_are_the_answers cfg create uuid4 items s pts s' :
  0 < RETRY_ATTEMPTS cfg ->
  (forall c m texts d data,
      create c m texts d = Some data -> length data = length texts) ->
  generate_embeddings cfg create uuid4 items s = (Return pts, s') ->
  exists T,
    trace s' = trace s ++ T
    /\ List.map fst (answered T)
       = List.map (List.map create_embedding_text)
                  (batches_of items (BATCH_SIZE cfg))
    /\ List.map vector pts = concat (List.map snd (answered T)).
Proof.
  intros HR Hlen H.
  destruct (generate_embeddings_Return _ _ _ _ _ _ _ H) as (HB & Hloop & ->).
  destruct (batch_loop_answers cfg create uuid4 Hlen HR _ _ _ _ Hloop)
    as (T & HT & Ha & Hl & Hp & _).
  fold (batches_of items (BATCH_SIZE cfg)) in Hl, Hp.
  rewrite batches_of_concat in Hl, Hp by exact HB.
  cbn [points app] in Hp.
  destruct (make_points_fields uuid4 (ids s) _ _ Hl) as (_ & Hv).
  exists T. split; [exact HT|]. split.
  - rewrite Ha. unfold batches_of. rewrite List.map_map. reflexivity.
  - rewrite Hp. exact Hv.
Qed.

Lemma vectors_are_the_answers_witness :
  exists T,
    trace (snd sample_run) = trace initial_state ++ T
    /\ List.map fst (answered T)
       = List.map (List.map create_embedding_text) (batches_of five_items 2)
    /\ List.map vector (points (snd sample_run))
       = concat (List.map snd (answered T)).
Proof.
  apply (vectors_are_the_answers small_config (late_service 1) sample_uuid4
           five_items initial_state (points (snd sample_run)) (snd sample_run)).
  - simpl. lia.
  - intros c m texts d data E. apply (late_service_contract _ _ _ _ _ _ E).
  - vm_compute. reflexivity.
Defined.

(** ** The script as a whole *)

Lemma load_knowledge_base_cases (f : csv_file) :
  (exists items, load_knowledge_base f = Return items)
  \/ load_knowledge_base f = Exit 1.
Proof.
  destruct f as [| |reads]; simpl; auto.
  destruct (load_rows reads []) as [items|e|c] eqn:E; eauto.
  destruct (load_rows_not_Exit _ _ _ E).
Qed.

Lemma print_statistics_cases (items : list KnowledgeItem) :
  print_statistics items = Return tt \/ print_statistics items = Raise TypeError.
Proof.
  unfold print_statistics.
  destruct (sortable _); [destruct (sortable _)|]; auto.
Qed.

Lemma generate_embeddings_cases cfg create uuid4 items s :
  (exists pts s',
      generate_embeddings cfg create uuid4 items s = (Return pts, s'))
  \/ (exists s', generate_embeddings cfg create uuid4 items s = (Exit 1, s'))
  \/ (exists s', generate_embeddings cfg create uuid4 items s
                 = (Raise ValueError, s')).
Proof.
  destruct (Nat.eq_dec (BATCH_SIZE cfg) 0) as [HB|HB].
  - right. right. rewrite generate_embeddings_zero_batch by exact HB. eauto.
  - rewrite generate_embeddings_unfold by lia.
    destruct (batch_loop cfg create uuid4 items _ _) as [o s'] eqn:E.
    destruct (batch_loop_outcomes _ _ _ _ _ _ _ _ E) as ([->| ->] & _); eauto.
Qed.

(** What a run of the script that ends with status 0 went through. *)
Lemma script_zero_inv cfg create uuid4 strftime the_disk api_key f w w' :
  script cfg create uuid4 strftime the_disk api_key f w = (0%Z, w') ->
  exists c0 key items pts s1,
    api_key = Some (String c0 key)
    /\ load_knowledge_base f = Return items
    /\ print_statistics items = Return tt
    /\ generate_embeddings cfg create uuid4 items (run w) = (Return pts, s1)
    /\ the_disk = Writable
    /\ w' = {| run := s1;
              output_file :=
                Some (Complete
                        {| doc_points := pts;
                           doc_metadata :=
                             {| total_items := length pts;
                                embedding_model := EMBEDDING_MODEL;
                                dimensions := EMBEDDING_DIMENSIONS;
                                generated_at := strftime |} |}) |}.
Proof.
  unfold script, main. intros H.
  destruct api_key as [[|c0 key]|]; try discriminate.
  destruct (load_knowledge_base_cases f) as [(items & El)|El]; rewrite El in H;
    [|discriminate].
  destruct (print_statistics_cases items) as [Es|Es]; rewrite Es in H;
    [|discriminate].
  destruct (generate_embeddings_cases cfg create uuid4 items (run w))
    as [(pts & s1 & Eg)|[(s1 & Eg)|(s1 & Eg)]]; rewrite Eg in H;
    try discriminate.
  unfold save_embeddings in H. cbn [run output_file] in H.
  destruct the_disk; try discriminate.
  injection H as <-. exists c0, key, items, pts, s1. repeat split; assumption.
Qed.

(** X14. The script ends with status 0 or with status 1, whatever the
    credential, the input file, the service and the disk are. *)
Theorem script_exit_status cfg create uuid4 strftime the_disk api_key f w :
  fst (script cfg create uuid4 strftime the_disk api_key f w) = 0%Z
  \/ fst (script cfg create uuid4 strftime the_disk api_key f w) = 1%Z.
Proof.
  unfold script, main.
  destruct api_key as [[|c0 key]|]; auto.
  destruct (load_knowledge_base_cases f) as [(items & ->)| ->]; auto.
  destruct (print_statistics_cases items) as [-> | ->]; auto.
  destruct (generate_embeddings_cases cfg create uuid4 items (run w))
    as [(pts & s1 & ->)|[(s1 & ->)|(s1 & ->)]]; auto.
  unfold save_embeddings. destruct the_disk; auto.
Qed.



(** X16. Without a credential, with a file that does not load or with
    statistics that cannot be sorted, the script ends with status 1 and
    has done nothing: no call of the service, no identifier drawn, the
    output file untouched. *)
Theorem script_stops_early cfg create uuid4 strftime the_disk api_key f w :
  api_key = None \/ api_key = Some EmptyString
  \/ load_knowledge_base f = Exit 1
  \/ (exists items, load_knowledge_base f = Return items
                    /\ print_statistics items = Raise TypeError) ->
  script cfg create uuid4 strftime the_disk api_key f w = (1%Z, w).
Proof.
  unfold script, main.
  intros [->|[->|[El|(items & El & Es)]]]; try reflexivity;
    (destruct api_key as [[|c0 key]|]; [reflexivity| |reflexivity]).
  - rewrite El. reflexivity.
  - rewrite El, Es. reflexivity.
Qed.

Lemma script_stops_early_witness :
  script small_config steady_service sample_uuid4 "2026-01-01 00:00:00"
         Writable (Some "sk-test") (Opened [Row passport_row; Row short_row])
         (initial_world None)
  = (1%Z, initial_world None)
  /\ script small_config steady_service sample_uuid4 "2026-01-01 00:00:00"
            Writable None three_rows (initial_world None)
     = (1%Z, initial_world None).
Proof.
  split.
  - apply (script_stops_early small_config steady_service sample_uuid4
             "2026-01-01 00:00:00" Writable (Some "sk-test")
             (Opened [Row passport_row; Row short_row]) (initial_world None)).
    right. right. right. eexists. split; vm_compute; reflexivity.
  - apply (script_stops_early small_config steady_service sample_uuid4
             "2026-01-01 00:00:00" Writable None three_rows
             (initial_world None)).
    left. reflexivity.
Defined.

Lemma Forall2_compose {A B C} (P : A -> B -> Prop) (Q : B -> C -> Prop)
      (R : A -> C -> Prop) (la : list A) (lb : list B) (lc : list C) :
  (forall a b c, P a b -> Q b c -> R a c) ->
  Forall2 P la lb -> Forall2 Q lb lc -> Forall2 R la lc.
Proof.
  intros HR F. revert lc. induction F as [|a b la lb Hab F IH]; intros lc G;
    inversion G; subst; constructor; eauto.
Qed.

(** X17. When the script ends with status 0 and the service has answered
    with one vector per text, the output file holds a whole document with
    one point per row of the input, in the order of the rows, each point
    carrying the item its row loads as; the count in the metadata is the
    number of rows, and the model and the dimensionality are those of the
    script. *)
Theorem successful_run_document cfg create uuid4 strftime the_disk api_key f
        w w' :
  0 < RETRY_ATTEMPTS cfg ->
  (forall c m texts d data,
      create c m texts d = Some data -> length data = length texts) ->
  script cfg create uuid4 strftime the_disk api_key f w = (0%Z, w') ->
  exists reads pts,
    f = Opened reads
    /\ output_file w'
       = Some (Complete
                 {| doc_points := pts;
                    doc_metadata :=
                      {| total_items := length reads;
                         embedding_model := "text-embedding-3-small";
                         dimensions := 1536;
                         generated_at := strftime |} |})
    /\ Forall2 (fun rd p => exists row,
                    rd = Row row /\ load_row row = Return (payload p))
               reads pts.
Proof.
  intros HR Hlen H. apply script_zero_inv in H.
  destruct H as (c0 & key & items & pts & s1 & _ & El & _ & Eg & _ & ->).
  apply load_knowledge_base_Return in El. destruct El as (reads & -> & F1).
  destruct (generate_embeddings_Return _ _ _ _ _ _ _ Eg) as (HB & Hloop & ->).
  destruct (batch_loop_points _ _ _ _ _ _ _ Hlen HR Hloop) as (new & Hp & F2).
  cbn [points app] in Hp.
  fold (batches_of items (BATCH_SIZE cfg)) in F2.
  rewrite batches_of_concat in F2 by exact HB.
  assert (F : Forall2 (fun rd p => exists row,
                           rd = Row row /\ load_row row = Return (payload p))
                      reads new).
  { eapply Forall2_compose; [|exact F1|exact F2].
    intros rd it p (row & -> & E) <-. eauto. }
  exists reads, (points s1). rewrite Hp. cbn [output_file].
  rewrite (Forall2_length _ _ _ F). repeat split. exact F.
Qed.

Lemma successful_run_document_witness :
  exists reads pts,
    three_rows = Opened reads
    /\ output_file
         (snd (script small_config (late_service 1) sample_uuid4
                 "2026-01-01 00:00:00" Writable (Some "sk-test") three_rows
                 (initial_world None)))
       = Some (Complete
                 {| doc_points := pts;
                    doc_metadata :=
                      {| total_items := length reads;
                         embedding_model := "text-embedding-3-small";
                         dimensions := 1536;
                         generated_at := "2026-01-01 00:00:00" |} |})
    /\ Forall2 (fun rd p => exists row,
                    rd = Row row /\ load_row row = Return (payload p))
               reads pts.
Proof.
  apply (successful_run_document small_config (late_service 1) sample_uuid4
           "2026-01-01 00:00:00" Writable (Some "sk-test") three_rows
           (initial_world None)).
  - simpl. lia.
  - intros c m texts d data E. apply (late_service_contract _ _ _ _ _ _ E).
  - vm_compute. reflexivity.
Defined.

(** X18. With a credential, a file that loads, statistics that sort, a
    service that answers every call with one vector per text and a disk
    that takes the file, the script ends with status 0 after ceil(N/B)
    calls and has written a document with one point per item. *)
Theorem steady_service_run_succeeds cfg create uuid4 strftime c0 key f w items :
  0 < RETRY_ATTEMPTS cfg -> 0 < BATCH_SIZE cfg ->
  (forall c m texts d, exists data,
      create c m texts d = Some data /\ length data = length texts) ->
  load_knowledge_base f = Return items ->
  print_statistics items = Return tt ->
  exists w' pts,
    script cfg create uuid4 strftime Writable (Some (String c0 key)) f w
    = (0%Z, w')
    /\ calls (run w')
       = calls (run w) + ceil_div (length items) (BATCH_SIZE cfg)
    /\ length pts = length items
    /\ output_file w'
       = Some (Complete
                 {| doc_points := pts;
                    doc_metadata :=
                      {| total_items := length items;
                         embedding_model := "text-embedding-3-small";
                         dimensions := 1536;
                         generated_at := strftime |} |}).
Proof.
  intros HR HB Hok El Es.
  assert (Hlen : forall c m texts d data,
             create c m texts d = Some data -> length data = length texts).
  { intros c m texts d data E. destruct (Hok c m texts d) as (data' & E' & L).
    congruence. }
  destruct (batch_loop_no_failure cfg create uuid4 items
              (range_loop (length items) 0 (length items) (BATCH_SIZE cfg))
              {| points := []; calls := calls (run w); ids := ids (run w);
                 trace := trace (run w) |} HR Hok) as (s1 & Hloop & Hc).
  destruct (batch_loop_points _ _ _ _ _ _ _ Hlen HR Hloop) as (new & Hp & F).
  cbn [points app calls] in Hp, Hc.
  fold (batches_of items (BATCH_SIZE cfg)) in F.
  rewrite batches_of_concat in F by exact HB.
  rewrite range_loop_length, Nat.sub_0_r in Hc by (exact HB || lia).
  pose proof (Forall2_length _ _ _ F) as L.
  eexists. exists new. split; [|split; [|split]].
  - unfold script, main. rewrite El, Es.
    rewrite generate_embeddings_unfold, Hloop by exact HB.
    unfold save_embeddings. reflexivity.
  - cbn [run]. exact Hc.
  - symmetry. exact L.
  - cbn [output_file run]. rewrite Hp, <- L. reflexivity.
Qed.

Lemma steady_service_run_succeeds_witness :
  exists w' pts,
    script script_config steady_service sample_uuid4 "2026-01-01 00:00:00"
           Writable (Some "sk-test") three_rows (initial_world None)
    = (0%Z, w')
    /\ calls (run w') = calls (run (initial_world None)) + ceil_div 3 100
    /\ length pts = length three_passports
    /\ output_file w'
       = Some (Complete
                 {| doc_points := pts;
                    doc_metadata :=
                      {| total_items := length three_passports;
                         embedding_model := "text-embedding-3-small";
                         dimensions := 1536;
                         generated_at := "2026-01-01 00:00:00" |} |}).
Proof.
  apply (steady_service_run_succeeds script_config steady_service sample_uuid4
           "2026-01-01 00:00:00" "s"%char "k-test" three_rows
           (initial_world None) three_passports).
  - simpl. lia.
  - simpl. lia.
  - apply steady_service_contract.
  - vm_compute. reflexivity.
  - reflexivity.
Defined.

(** ** The statistics *)

(** X19. Each counter of the statistics maps a value to the number of
    items that carry it, and has no entry for a value that no item
    carries. *)
Theorem count_by_counts (key : KnowledgeItem -> cell)
        (items : list KnowledgeItem) (v : cell) :
  count_by key items !! v
  = match occurrences key v items with
    | O => None
    | S n => Some (S n)
    end.
Proof.
  assert (G : forall counts : gmap cell nat,
             fold_left (fun counts it =>
                          <[key it := match counts !! key it with
                                      | Some n => n
                                      | None => 0
                                      end + 1]> counts)
                       items counts !! v
             = match counts !! v with
               | Some k => Some (k + occurrences key v items)
               | None => match occurrences key v items with
                         | O => None
                         | S n => Some (S n)
                         end
               end).
  { induction items as [|it items IH]; intros counts.
    - simpl. destruct (counts !! v); [f_equal; unfold occurrences; simpl; lia|].
      reflexivity.
    - cbn [fold_left]. rewrite IH. unfold occurrences. cbn [List.filter].
      destruct (decide (key it = v)) as [->|Hne].
      + rewrite lookup_insert_eq, bool_decide_eq_true_2 by reflexivity.
        cbn [length]. destruct (counts !! v); f_equal; lia.
      + rewrite lookup_insert_ne, bool_decide_eq_false_2 by assumption.
        reflexivity. }
  unfold count_by. rewrite G, lookup_empty. reflexivity.
Qed.

Lemma existsb_is_none_text (keys : list cell) :
  Forall (fun v => exists s, v = CStr s) keys -> existsb is_none keys = false.
Proof.
  induction 1 as [|v keys (s & ->) F IH]; [reflexivity | exact IH].
Qed.

(** X20. When every row of the file has text under category and under
    travel_type, the statistics of the loaded items go through. *)
Theorem full_rows_have_statistics (f : csv_file) (items : list KnowledgeItem) :
  load_knowledge_base f = Return items ->
  (forall reads row,
      f = Opened reads -> In (Row row) reads ->
      (exists s, row !! "category" = Some (CStr s))
      /\ (exists s, row !! "travel_type" = Some (CStr s))) ->
  print_statistics items = Return tt.
Proof.
  intros H Hrows. apply load_knowledge_base_Return in H.
  destruct H as (reads & -> & F).
  specialize (Hrows reads).
  assert (G : Forall (fun it => (exists s, category it = CStr s)
                                /\ (exists s, travel_type it = CStr s)) items).
  { induction F as [|rd it reads items (row & -> & E) F IH]; constructor.
    - destruct (Hrows row eq_refl (or_introl eq_refl)) as ((c & Hc) & (t & Ht)).
      apply load_row_Return in E.
      destruct E as (_ & _ & _ & _ & _ & Hc' & _ & Ht' & _).
      split; [exists c | exists t]; congruence.
    - apply IH. intros row' _ Hin. apply (Hrows row' eq_refl). right. exact Hin. }
  unfold print_statistics, sortable.
  rewrite !existsb_is_none_text; [reflexivity| |].
  - apply List.Forall_map. eapply Forall_impl; [exact G|]. simpl. tauto.
  - apply List.Forall_map. eapply Forall_impl; [exact G|]. simpl. tauto.
Qed.

Lemma full_rows_have_statistics_witness :
  print_statistics three_passports = Return tt.
Proof.
  apply (full_rows_have_statistics three_rows three_passports).
  - vm_compute. reflexivity.
  - intros reads row E Hin. injection E as <-.
    assert (row = passport_row) as ->.
    { simpl in Hin. destruct Hin as [E|[E|[E|[]]]]; injection E as <-;
        reflexivity. }
    split; eexists; vm_compute; reflexivity.
Defined.
